(** * PS-RoI pooling (utils/psroi_module.py): a shallow embedding

    The Python module wraps two CUDA kernels (PSROIPoolForward and
    PSROIPoolBackward, whose text lives in utils/psroi_cuda.py) in a
    torch.autograd.Function.  This development embeds

    - the helpers [t_ntuple], [t_pair] and [GET_BLOCKS],
    - the configuration object [psRoI_Info] with [set_para],
    - [psRoI.forward] and [psRoI.backward] as programs of a state and
      exception monad over a small model of the tensor runtime (a heap of
      buffers addressed by data pointers and a log of kernel launches),
    - the constructor and the forward method of [PSRoIPooling2D],
    - the warm-up call [acitvate_PsROI_for_eval].

    The text of the kernels is kept in another file of the repository;
    the module [PSROIPool] models them from the specification.

    Python integers are [Z]; a Python float is a rational [Q]; a float
    element of a buffer is a rational or the non-finite value [NaN], and
    the narrowing of a Python float to 32 bits, which the module does
    when it packs and when it saves the spatial scale, is
    [float32_nearest].  The arithmetic inside the kernels is idealised
    on rationals.

    The file has two parts: the definitions, then the properties. *)

From Stdlib Require Import ZArith QArith Qround Qabs Qpower String DecimalString
  List Lia.
From stdpp Require Import base list.

Local Open Scope Z_scope.

(** * Part I: definitions *)

(** ** Exceptions and the state/exception monad *)

Inductive exn :=
| ValueError (msg : string)
| TypeError
| IndexError
| RuntimeError
| ZeroDivisionError.

Inductive result (A : Type) :=
| Ok (a : A)
| Raise (e : exn).
Arguments Ok {A} a.
Arguments Raise {A} e.

(** A computation reads and updates a state [S]; when it raises, the state
    reached so far stays observable (Python objects mutated before the
    raise stay mutated). *)
Definition M (S A : Type) : Type := S -> result A * S.

Definition ret {S A} (a : A) : M S A := fun s => (Ok a, s).
Definition raise {S A} (e : exn) : M S A := fun s => (Raise e, s).
Definition bind {S A B} (m : M S A) (k : A -> M S B) : M S B :=
  fun s => match m s with
           | (Ok a, s') => k a s'
           | (Raise e, s') => (Raise e, s')
           end.
Definition get {S} : M S S := fun s => (Ok s, s).
Definition put {S} (s : S) : M S unit := fun _ => (Ok tt, s).
Definition lift {S A} (r : result A) : M S A := fun s => (r, s).

Declare Scope py_scope.
Delimit Scope py_scope with py.
Notation "x <- m ;; k" := (bind m (fun x => k))
  (at level 100, m at next level, right associativity) : py_scope.
Notation "m ;;; k" := (bind m (fun _ => k))
  (at level 100, right associativity) : py_scope.
Local Open Scope py_scope.

(** ** Module-level helpers *)

Definition CUDA_NUM_THREADS : Z := 1024.

(** An argument that is either one non-iterable value or an iterable of
    values, which is what [isinstance(x, Iterable)] tells apart; an
    iterable is a sequence that can be indexed (tuple, list), [Iter], or
    one that cannot (set, generator), [Unordered], given with the values
    it yields. *)
Inductive arg (A : Type) :=
| Single (x : A)
| Iter (xs : list A)
| Unordered (xs : list A).
Arguments Single {A} x.
Arguments Iter {A} xs.
Arguments Unordered {A} xs.

Definition is_iterable {A} (x : arg A) : bool :=
  match x with Iter _ | Unordered _ => true | Single _ => false end.

Definition t_ntuple {A} (n : nat) (x : arg A) : arg A :=
  match x with
  | Iter xs => Iter xs
  | Unordered xs => Unordered xs
  | Single v => Iter (repeat v n)
  end.

Definition t_pair {A} : arg A -> arg A := t_ntuple 2.

(** [(N + K - 1) // K]: Python's floor division is [Z.div].  Every call
    in the module leaves [K] at its default, [CUDA_NUM_THREADS]. *)
Definition GET_BLOCKS_K (N K : Z) : Z := (N + K - 1) / K.
Definition GET_BLOCKS (N : Z) : Z := GET_BLOCKS_K N CUDA_NUM_THREADS.

(** Python's [%] and [//] on integers: floor semantics, a zero divisor
    raises. *)
Definition py_mod (a b : Z) : result Z :=
  if b =? 0 then Raise ZeroDivisionError else Ok (a mod b).
Definition py_floordiv (a b : Z) : result Z :=
  if b =? 0 then Raise ZeroDivisionError else Ok (a / b).

(** [p[i]] on a pool-size argument. *)
Definition getitem {A} (p : arg A) (i : nat) : result A :=
  match p with
  | Single _ | Unordered _ => Raise TypeError
  | Iter xs => match xs !! i with Some v => Ok v | None => Raise IndexError end
  end.

(** ** psRoI_Info *)

Record psRoI_Info := mkInfo {
  outh : option Z;
  outw : option Z;
  spatial_scale : option Q;
  group_size : option Z
}.

(** [psRoI_Info.__init__]: every field starts as None (the compiled
    forward kernel the object also stores is the variable [forward_fn] of
    section [psRoI] below). *)
Definition psRoI_Info_init : psRoI_Info := mkInfo None None None None.

Definition set_outh_outw_scale (h w : Z) (s : Q) : M psRoI_Info unit :=
  fun self => (Ok tt, mkInfo (Some h) (Some w) (Some s) (group_size self)).
Definition set_group_size (g : Z) : M psRoI_Info unit :=
  fun self => (Ok tt, mkInfo (outh self) (outw self) (spatial_scale self) (Some g)).

Definition pool_msg : string :=
  "pool_h_size must be equal with pool_w_size when the group_size is None"%string.

(** [set_para]: the state of the monad is the object [self]. *)
Definition set_para (pool_size : arg Z) (scale : Q) (gs : option Z)
  : M psRoI_Info unit :=
  p0 <- lift (getitem pool_size 0) ;;
  p1 <- lift (getitem pool_size 1) ;;
  set_outh_outw_scale p0 p1 scale ;;;
  match gs with
  | None =>
      a <- lift (getitem pool_size 0) ;;
      b <- lift (getitem pool_size 1) ;;
      if negb (a =? b) then raise (ValueError pool_msg)
      else g <- lift (getitem pool_size 0) ;; set_group_size g
  | Some g => set_group_size g
  end.

(** ** The tensor runtime *)

(** A float element: a finite value, or [NaN] for any value that is not
    a finite number. *)
Inductive fval :=
| Fin (q : Q)
| NaN.

Inductive buffer :=
| FloatBuf (l : list fval)
| IntBuf (l : list Z).

(** A tensor object: its shape, the data pointer of its storage and
    whether its layout is contiguous.  A buffer holds the elements in
    logical (row-major) order. *)
Record Tensor := mkTensor {
  t_shape : list Z;
  data_ptr : nat;
  is_contiguous : bool
}.

Inductive kernel_name := PSROIPoolForward | PSROIPoolBackward.

(** One packed kernel argument. *)
Inductive karg :=
| KInt (z : Z)
| KPtr (p : nat)
| KFloat32 (v : fval).

Record Launch := mkLaunch {
  l_kernel : kernel_name;
  l_args : list karg;
  l_block : Z * Z * Z;
  l_grid : Z * Z * Z
}.

(** Device and host memory: buffer number [p] is the storage behind data
    pointer [p]; [launches] logs the kernel launches, oldest first. *)
Record runtime := mkRuntime {
  heap : list buffer;
  launches : list Launch
}.

(** What a loaded kernel does when launched with the packed arguments on
    a grid of [grid] blocks of [block] threads: it reads memory and
    overwrites buffers that exist, given as (data pointer, new contents);
    it neither allocates nor frees. *)
Definition kernel : Type :=
  list karg -> Z -> Z -> list buffer -> list (nat * buffer).

Definition apply_writes (ws : list (nat * buffer)) (h : list buffer)
  : list buffer :=
  foldl (fun h '(p, b) => <[p := b]> h) h ws.

(** [t.numel()], from the shape. *)
Definition numel (shape : list Z) : Z := fold_right Z.mul 1 shape.
Arguments numel : simpl never.

(** Allocation: the new storage gets the first unused data pointer.  A
    data pointer here names a storage; a tensor of no element has a
    storage of its own too, through which nothing can be read or written
    (the runtime reports the null address for each of them). *)
Definition alloc (b : buffer) : M runtime nat :=
  fun st => (Ok (length (heap st)), mkRuntime (heap st ++ [b]) (launches st)).

Definition zero_floats (n : Z) : buffer := FloatBuf (repeat (Fin 0) (Z.to_nat n)).
Definition zero_ints (n : Z) : buffer := IntBuf (repeat 0 (Z.to_nat n)).

(** [t.zeros(shape).cuda()] and [torch.zeros(count, dtype=int).cuda()]:
    a negative dimension is refused. *)
Definition zeros_with (mk : Z -> buffer) (shape : list Z) : M runtime Tensor :=
  if forallb (fun d => 0 <=? d) shape then
    p <- alloc (mk (numel shape)) ;;
    ret (mkTensor shape p true)
  else raise RuntimeError.
Definition zeros : list Z -> M runtime Tensor := zeros_with zero_floats.
Definition zeros_int : list Z -> M runtime Tensor := zeros_with zero_ints.

(** [torch.tensor(list_of_ints)]. *)
Definition tensor_of_ints (l : list Z) : M runtime Tensor :=
  p <- alloc (IntBuf l) ;;
  ret (mkTensor [Z.of_nat (length l)] p true).

(** [floor (log2 q)] of a positive rational. *)
Definition Qlog2 (q : Q) : Z :=
  let e := Z.log2 (Qnum q) - Z.log2 (Zpos (Qden q)) in
  if Qle_bool (2 ^ e) q then e else e - 1.

(** The nearest integer, a half going to the even one. *)
Definition Qround_even (q : Q) : Z :=
  let f := Qfloor q in
  match (q - inject_Z f ?= 1 # 2)%Q with
  | Lt => f
  | Gt => f + 1
  | Eq => if Z.even f then f else f + 1
  end.

(** The narrowing of a Python float to 32 bits (IEEE 754 binary32, round
    to nearest, ties to even): 24 significant bits, exponents from -126
    with the subnormal values below, and past the largest finite value
    no finite number.  The result is in lowest terms. *)
Definition float32_nearest (q : Q) : fval :=
  if Qeq_bool q 0 then Fin 0
  else
    let a := Qabs q in
    let e := Z.max (Qlog2 a) (-126) in
    let ulp := (2 ^ (e - 23))%Q in
    let v := (inject_Z (Qround_even (a / ulp)) * ulp)%Q in
    if Qle_bool (2 ^ 128) v then NaN
    else Fin (Qred (if Qle_bool 0 q then v else - v)).

(** [cp.float32(v)] of a field that holds a float or None: None becomes
    nan. *)
Definition float32 (v : option Q) : fval :=
  match v with
  | Some q => float32_nearest q
  | None => NaN
  end.

(** [torch.tensor(v)] of a field that holds a float or None: a float is
    stored in 32 bits, the default dtype; None has no dtype and is
    refused. *)
Definition tensor_of_scalar (v : option Q) : M runtime Tensor :=
  match v with
  | Some q => p <- alloc (FloatBuf [float32_nearest q]) ;; ret (mkTensor [] p true)
  | None => raise RuntimeError
  end.

(** [x.contiguous()]: the tensor itself when it is contiguous, else a
    fresh contiguous copy. *)
Definition contiguous (x : Tensor) : M runtime Tensor :=
  if is_contiguous x then ret x
  else
    st <- get ;;
    match heap st !! data_ptr x with
    | Some b => p <- alloc b ;; ret (mkTensor (t_shape x) p true)
    | None => raise RuntimeError
    end.

(** The buffers a call to [contiguous] adds to memory: none, or one
    copy. *)
Definition contiguous_copy (x : Tensor) (h : list buffer) : list buffer :=
  if is_contiguous x then []
  else match h !! data_ptr x with Some b => [b] | None => [] end.

(** [x.size(i)]. *)
Definition size (x : Tensor) (i : nat) : M runtime Z :=
  match t_shape x !! i with
  | Some d => ret d
  | None => raise IndexError
  end.

(** A natural number in decimal, as [%d] prints it. *)
Definition decimal (n : nat) : string :=
  NilEmpty.string_of_uint (Nat.to_uint n).

(** The message of the ValueError that unpacking [got] values into
    [expected] targets raises. *)
Definition unpack_msg (expected got : nat) : string :=
  if (got <? expected)%nat then
    ("not enough values to unpack (expected " ++ decimal expected
       ++ ", got " ++ decimal got ++ ")")%string
  else
    ("too many values to unpack (expected " ++ decimal expected ++ ")")%string.

(** [a, b, c, d = l] and [a, b, c, d, e = l]. *)
Definition unpack4 {S A} (l : list A) : M S (A * A * A * A) :=
  match l with
  | [a; b; c; d] => ret (a, b, c, d)
  | _ => raise (ValueError (unpack_msg 4 (length l)))
  end.
Definition unpack5 {S A} (l : list A) : M S (A * A * A * A * A) :=
  match l with
  | [a; b; c; d; e] => ret (a, b, c, d, e)
  | _ => raise (ValueError (unpack_msg 5 (length l)))
  end.

(** [t.tolist()] of an integer tensor. *)
Definition tolist (x : Tensor) : M runtime (list Z) :=
  st <- get ;;
  match heap st !! data_ptr x with
  | Some (IntBuf l) => ret l
  | Some (FloatBuf _) => raise TypeError
  | None => raise RuntimeError
  end.

(** [cp.float32(t)] of a tensor: the value of a one-element float
    tensor, which is a 32-bit value already. *)
Definition float32_of_tensor (x : Tensor) : M runtime fval :=
  st <- get ;;
  match heap st !! data_ptr x with
  | Some (FloatBuf [v]) => ret v
  | Some _ => raise TypeError
  | None => raise RuntimeError
  end.

(** Arithmetic on, or an allocation sized by, a field of the
    configuration that is still None raises TypeError. *)
Definition attr {S A} (f : option A) : M S A :=
  match f with
  | Some v => ret v
  | None => raise TypeError
  end.

(** [fn(args=args, block=(b,1,1), grid=(g,1,1), stream=stream)]. *)
Definition launch (name : kernel_name) (fn : kernel) (args : list karg)
    (block grid : Z) : M runtime unit :=
  fun st => (Ok tt,
             mkRuntime (apply_writes (fn args grid block (heap st)) (heap st))
                       (launches st ++ [mkLaunch name args (block, 1, 1) (grid, 1, 1)])).

(** The autograd context: the tensors handed to [save_for_backward]. *)
Record Ctx := mkCtx { saved_tensors : list Tensor }.

Definition save_for_backward (ctx : Ctx) (ts : list Tensor) : Ctx := mkCtx ts.

Definition channel_msg : string :=
  "The group_size must be an integral multiple of input_channel!"%string.

(** Packing parameters: the argument lists of the two kernels, in the
    order the launches pass them. *)
Definition forward_args (count : Z) (x : Tensor) (sc : fval) (C H W oh ow : Z)
    (rois : Tensor) (out_dim gs : Z) (output mapping_channel : Tensor)
  : list karg :=
  [KInt count; KPtr (data_ptr x); KFloat32 sc;
   KInt C; KInt H; KInt W; KInt oh; KInt ow;
   KPtr (data_ptr rois); KInt out_dim; KInt gs;
   KPtr (data_ptr output); KPtr (data_ptr mapping_channel)].

Definition backward_args (count : Z) (grad_output mapping_channel : Tensor)
    (N : Z) (sc : fval) (C H W outh outw out_dim : Z) (grad_input rois : Tensor)
  : list karg :=
  [KInt count; KPtr (data_ptr grad_output);
   KPtr (data_ptr mapping_channel); KInt N; KFloat32 sc;
   KInt C; KInt H; KInt W; KInt outh; KInt outw; KInt out_dim;
   KPtr (data_ptr grad_input); KPtr (data_ptr rois)].

(** ** psRoI and PSRoIPooling2D *)

Section psRoI.

(** The two compiled kernels, [Info.forward_fn] and the module-level
    [psROI_backward_fn]. *)
Variable forward_fn : kernel.
Variable psROI_backward_fn : kernel.

Definition forward (ctx : Ctx) (x rois : Tensor) (Info : psRoI_Info)
  : M runtime (Ctx * Tensor) :=
  x <- contiguous x ;;
  rois <- contiguous rois ;;
  in_size <- unpack4 (t_shape x) ;;
  let '(B, C, H, W) := in_size in
  N <- size rois 0 ;;
  gs <- attr (group_size Info) ;;
  r <- lift (py_mod C (gs * gs)) ;;
  if negb (r =? 0) then raise (ValueError channel_msg)
  else
    out_dim <- lift (py_floordiv C (gs * gs)) ;;
    oh <- attr (outh Info) ;;
    ow <- attr (outw Info) ;;
    output <- zeros [N; out_dim; oh; ow] ;;
    let count := numel (t_shape output) in
    mapping_channel <- zeros_int [count] ;;
    let args := forward_args count x (float32 (spatial_scale Info))
                             C H W oh ow rois out_dim gs
                             output mapping_channel in
    launch PSROIPoolForward forward_fn args CUDA_NUM_THREADS (GET_BLOCKS count) ;;;
    saveBackwardInfo_int <- tensor_of_ints [count; N; out_dim; oh; ow] ;;
    in_size_t <- tensor_of_ints [B; C; H; W] ;;
    scale_t <- tensor_of_scalar (spatial_scale Info) ;;
    ret (save_for_backward ctx
           [saveBackwardInfo_int; in_size_t; scale_t; rois; mapping_channel],
         output).

Definition backward (ctx : Ctx) (grad_output : option Tensor)
  : M runtime (option Tensor * option Tensor * option Tensor) :=
  match grad_output with
  | None => ret (None, None, None)
  | Some grad_output =>
      grad_output <- contiguous grad_output ;;
      saved <- unpack5 (saved_tensors ctx) ;;
      let '(int_info, in_size, spatial_scale, rois, mapping_channel) := saved in
      ints <- tolist int_info ;;
      info <- unpack5 ints ;;
      let '(count, N, out_dim, outh, outw) := info in
      in_size <- tolist in_size ;;
      dims <- unpack4 in_size ;;
      let '(B, C, H, W) := dims in
      grad_input <- zeros in_size ;;
      sc <- float32_of_tensor spatial_scale ;;
      let args := backward_args count grad_output mapping_channel N sc
                                C H W outh outw out_dim grad_input rois in
      launch PSROIPoolBackward psROI_backward_fn args CUDA_NUM_THREADS
             (GET_BLOCKS (numel (t_shape grad_output))) ;;;
      ret (Some grad_input, None, None)
  end.

End psRoI.

(** [PSRoIPooling2D]: the module object holds its [RoI_Info]. *)
Record PSRoIPooling2D := mkModule { RoI_Info : psRoI_Info }.

(** [PSRoIPooling2D.__init__]: when [set_para] raises, no module is
    returned. *)
Definition PSRoIPooling2D_init (pool_size : arg Z) (scale : Q)
    (gs : option Z) : result PSRoIPooling2D :=
  let pool_size := t_pair pool_size in
  match set_para pool_size scale gs psRoI_Info_init with
  | (Ok _, info) => Ok (mkModule info)
  | (Raise e, _) => Raise e
  end.

(** [PSRoIPooling2D.forward]: [self.psROI_md.apply(x, rois, self.RoI_Info)],
    on a context of its own. *)
Definition PSRoIPooling2D_forward (forward_fn : kernel) (self : PSRoIPooling2D)
    (x rois : Tensor) : M runtime (Ctx * Tensor) :=
  forward forward_fn (mkCtx []) x rois (RoI_Info self).

(** ** A forward call and its paired backward call, step by step *)

(** The values a forward call reads on its way: the contiguous inputs, the
    runtime once both are contiguous, the sizes and the configuration. *)
Record forward_run := mkRun {
  fr_x : Tensor;
  fr_rois : Tensor;
  fr_pre : runtime;
  fr_B : Z; fr_C : Z; fr_H : Z; fr_W : Z;
  fr_N : Z;
  fr_gs : Z; fr_oh : Z; fr_ow : Z;
  fr_sc : Q
}.

(** How a run is read off the inputs of a call. *)
Definition fr_reads (r : forward_run) (x rois : Tensor) (Info : psRoI_Info)
    (st : runtime) : Prop :=
  exists sa,
    contiguous x st = (Ok (fr_x r), sa) /\
    contiguous rois sa = (Ok (fr_rois r), fr_pre r) /\
    t_shape x = [fr_B r; fr_C r; fr_H r; fr_W r] /\
    t_shape rois !! 0%nat = Some (fr_N r) /\
    Info = mkInfo (Some (fr_oh r)) (Some (fr_ow r)) (Some (fr_sc r))
                  (Some (fr_gs r)).

Section forward_run.

Variable forward_fn : kernel.
Variable r : forward_run.

Definition fr_out_dim : Z := fr_C r / (fr_gs r * fr_gs r).
Definition fr_shape : list Z := [fr_N r; fr_out_dim; fr_oh r; fr_ow r].
Definition fr_count : Z := numel fr_shape.
Definition fr_output : Tensor := mkTensor fr_shape (length (heap (fr_pre r))) true.
Definition fr_mapping : Tensor :=
  mkTensor [fr_count] (S (length (heap (fr_pre r)))) true.
Definition fr_args : list karg :=
  forward_args fr_count (fr_x r) (float32 (Some (fr_sc r)))
               (fr_C r) (fr_H r) (fr_W r)
               (fr_oh r) (fr_ow r) (fr_rois r) fr_out_dim (fr_gs r)
               fr_output fr_mapping.

(** Memory when the kernel is launched, and when it is done. *)
Definition fr_heap_at_launch : list buffer :=
  heap (fr_pre r) ++ [zero_floats fr_count; zero_ints fr_count].
Definition fr_heap_launched : list buffer :=
  apply_writes
    (forward_fn fr_args (GET_BLOCKS fr_count) CUDA_NUM_THREADS fr_heap_at_launch)
    fr_heap_at_launch.
Definition fr_launch : Launch :=
  mkLaunch PSROIPoolForward fr_args (CUDA_NUM_THREADS, 1, 1)
           (GET_BLOCKS fr_count, 1, 1).

(** The three tensors made for the context, the context and the runtime
    the call ends in. *)
Definition fr_int_info : Tensor := mkTensor [5] (length fr_heap_launched) true.
Definition fr_in_size : Tensor := mkTensor [4] (S (length fr_heap_launched)) true.
Definition fr_scale : Tensor := mkTensor [] (S (S (length fr_heap_launched))) true.
Definition fr_ctx : Ctx :=
  mkCtx [fr_int_info; fr_in_size; fr_scale; fr_rois r; fr_mapping].
Definition fr_final : runtime :=
  mkRuntime
    (fr_heap_launched ++
       [IntBuf [fr_count; fr_N r; fr_out_dim; fr_oh r; fr_ow r];
        IntBuf [fr_B r; fr_C r; fr_H r; fr_W r];
        FloatBuf [float32 (Some (fr_sc r))]])
    (launches (fr_pre r) ++ [fr_launch]).

(** The conditions under which the call gets through. *)
Definition fr_passes : Prop :=
  fr_gs r * fr_gs r <> 0 /\
  fr_C r mod (fr_gs r * fr_gs r) = 0 /\
  forallb (fun d => 0 <=? d) fr_shape = true.

End forward_run.

(** The saved tensors still hold at backward time what forward left in
    them. *)
Definition saved_intact (ctx : Ctx) (st1 st2 : runtime) : Prop :=
  Forall (fun t => heap st2 !! data_ptr t = heap st1 !! data_ptr t)
         (saved_tensors ctx).

Section backward_run.

Variable psROI_backward_fn : kernel.
Variable r : forward_run.

(** The contiguous gradient and the runtime once it is contiguous. *)
Variable grad_output : Tensor.
Variable pre : runtime.

Definition bk_in_size : list Z := [fr_B r; fr_C r; fr_H r; fr_W r].
Definition bk_grad_input : Tensor :=
  mkTensor bk_in_size (length (heap pre)) true.
Definition bk_args : list karg :=
  backward_args (fr_count r) grad_output (fr_mapping r) (fr_N r)
                (float32 (Some (fr_sc r)))
                (fr_C r) (fr_H r) (fr_W r) (fr_oh r) (fr_ow r)
                (fr_out_dim r) bk_grad_input (fr_rois r).
Definition bk_grid : Z := GET_BLOCKS (numel (t_shape grad_output)).
Definition bk_heap_at_launch : list buffer :=
  heap pre ++ [zero_floats (numel bk_in_size)].
Definition bk_launch : Launch :=
  mkLaunch PSROIPoolBackward bk_args (CUDA_NUM_THREADS, 1, 1) (bk_grid, 1, 1).
Definition bk_final : runtime :=
  mkRuntime
    (apply_writes
       (psROI_backward_fn bk_args bk_grid CUDA_NUM_THREADS bk_heap_at_launch)
       bk_heap_at_launch)
    (launches pre ++ [bk_launch]).

End backward_run.

(** ** The two kernels *)

Module PSROIPool.

(** Modelled from the spec: the kernel sources [kernel_forward_t] and
    [kernel_backward_t] (utils/psroi_cuda.py) are missing.  Every
    definition of this module follows sections 3 and 4.2 to 4.4 of the
    specification, with the argument lists and the launch geometry that
    [forward] and [backward] above pass to the kernels. *)

(** Modelled from the spec: addition of two real values of the feature
    map or of a gradient (missing: the kernels' float arithmetic); a
    non-finite operand gives [NaN]. *)
Definition fadd (a b : fval) : fval :=
  match a, b with
  | Fin p, Fin q => Fin (p + q)
  | _, _ => NaN
  end.

(** Modelled from the spec: division of a sum or of a gradient by a bin
    area (missing: the kernels' float arithmetic); a zero divisor gives
    [NaN]. *)
Definition fdiv_int (a : fval) (n : Z) : fval :=
  match a with
  | Fin p => if n =? 0 then NaN else Fin (p / inject_Z n)
  | NaN => NaN
  end.

(** Modelled from the spec: a read through a kernel's pointer argument at
    an element offset (missing: the kernels' memory accesses); outside
    the buffer the value is undefined, which [NaN] stands for. *)
Definition read_at (l : list fval) (off : Z) : fval :=
  if off <? 0 then NaN else default NaN (l !! Z.to_nat off).

(** Modelled from the spec: the offset of element [(b, c, h, w)] of the
    4D array [B x C x H x W] of section 3, stored row-major. *)
Definition offset4 (C H W b c h w : Z) : Z := ((b * C + c) * H + h) * W + w.

(** Modelled from the spec: a region of section 3,
    [(batch_index, xmin, ymin, xmax, ymax)]. *)
Record Region := mkRegion {
  batch : Z;
  x0 : Q; y0 : Q; x1 : Q; y1 : Q
}.

(** Modelled from the spec: [round] of step 1, to the nearest integer,
    halves away from zero. *)
Definition round (q : Q) : Z :=
  if Qle_bool 0 q then Qfloor (q + (1 # 2)) else Qceiling (q - (1 # 2)).

(** Modelled from the spec: [clip(v, lo, hi)] of step 3. *)
Definition clip (v lo hi : Z) : Z := Z.min (Z.max v lo) hi.

(** Modelled from the spec: the pixel window
    [hstart, hend) x [wstart, wend) of step 3. *)
Record Window := mkWindow {
  hstart : Z; hend : Z; wstart : Z; wend : Z
}.

(** Modelled from the spec: steps 1 to 3 of section 4.2, the clipped
    pixel window of bin [(ph, pw)]. *)
Definition bin_window (reg : Region) (scale : Q) (H W outH outW ph pw : Z)
  : Window :=
  let rs_w := round (x0 reg * scale) in
  let rs_h := round (y0 reg * scale) in
  let re_w := round (x1 reg * scale) in
  let re_h := round (y1 reg * scale) in
  let roi_w := Z.max (re_w - rs_w) 1 in
  let roi_h := Z.max (re_h - rs_h) 1 in
  let bin_w := (inject_Z roi_w / inject_Z outW)%Q in
  let bin_h := (inject_Z roi_h / inject_Z outH)%Q in
  mkWindow
    (clip (Qfloor (inject_Z rs_h + inject_Z ph * bin_h)) 0 H)
    (clip (Qceiling (inject_Z rs_h + inject_Z (ph + 1) * bin_h)) 0 H)
    (clip (Qfloor (inject_Z rs_w + inject_Z pw * bin_w)) 0 W)
    (clip (Qceiling (inject_Z rs_w + inject_Z (pw + 1) * bin_w)) 0 W).

(** Modelled from the spec: step 5, the degenerate bin:
    [hstart >= hend] or [wstart >= wend]. *)
Definition is_empty (win : Window) : bool :=
  (hend win <=? hstart win) || (wend win <=? wstart win).

(** Modelled from the spec: [bin_area] of section 4.3. *)
Definition bin_area (win : Window) : Z :=
  (hend win - hstart win) * (wend win - wstart win).

(** Modelled from the spec: step 4, the position-sensitive channel. *)
Definition c_src (group_size out_dim c_out ph pw : Z) : Z :=
  (ph * group_size + pw) * out_dim + c_out.

(** Modelled from the spec: the integers of a half-open interval
    [[lo, hi)] of step 6, ascending. *)
Definition range (lo hi : Z) : list Z :=
  map (fun k => lo + Z.of_nat k) (seq 0 (Z.to_nat (hi - lo))).

(** Modelled from the spec: the pixels [(h, w)] of a window, step 6, row
    by row. *)
Definition pixels (win : Window) : list (Z * Z) :=
  h ← range (hstart win) (hend win);
  w ← range (wstart win) (wend win);
  [(h, w)].

(** Modelled from the spec: steps 5 and 6, the value of one output
    element: zero on an empty window, else the mean of the window in
    channel [c] of image [batch reg]. *)
Definition pool (fm : list fval) (C H W : Z) (reg : Region) (c : Z)
    (win : Window) : fval :=
  if is_empty win then Fin 0
  else
    fdiv_int
      (foldl (fun acc '(h, w) =>
                fadd acc (read_at fm (offset4 C H W (batch reg) c h w)))
             (Fin 0) (pixels win))
      (bin_area win).

(** Modelled from the spec: section 4.3, one gradient element spread
    over its window, [GradOutput / bin_area] added to every pixel; an
    empty window leaves the gradient as it is. *)
Definition scatter (grad : list fval) (C H W : Z) (reg : Region) (c : Z)
    (win : Window) (g : fval) : list fval :=
  if is_empty win then grad
  else
    let share := fdiv_int g (bin_area win) in
    foldl (fun acc '(h, w) =>
             let off := offset4 C H W (batch reg) c h w in
             if off <? 0 then acc
             else alter (fun v => fadd v share) (Z.to_nat off) acc)
          grad (pixels win).

(** Modelled from the spec: section 4.4, the logical index space of size
    [N x out_dim x outH x outW]: element [index] of the contiguous output
    is [(n, c_out, ph, pw)]. *)
Definition unravel (out_dim outH outW index : Z) : Z * Z * Z * Z :=
  let pw := index mod outW in
  let ph := (index / outW) mod outH in
  let c_out := (index / outW / outH) mod out_dim in
  let n := index / outW / outH / out_dim in
  (n, c_out, ph, pw).

(** Modelled from the spec: the index of element [(n, c_out, ph, pw)] in
    that index space. *)
Definition ravel (out_dim outH outW n c_out ph pw : Z) : Z :=
  ((n * out_dim + c_out) * outH + ph) * outW + pw.

(** Modelled from the spec: a coordinate stored in the regions array, a
    real number by section 3 (a stored [NaN] is read as 0). *)
Definition coord (v : fval) : Q :=
  match v with Fin q => q | NaN => 0 end.

(** Modelled from the spec: region [n] of the regions array, section 6:
    five consecutive values [batch_index, xmin, ymin, xmax, ymax]. *)
Definition region_at (rois : list fval) (n : Z) : Region :=
  mkRegion (Qfloor (coord (read_at rois (5 * n))))
           (coord (read_at rois (5 * n + 1)))
           (coord (read_at rois (5 * n + 2)))
           (coord (read_at rois (5 * n + 3)))
           (coord (read_at rois (5 * n + 4))).

(** Modelled from the spec: section 4.4, one unit of work per element:
    thread [i] of the [grid * block] launched ones computes element [i]
    when [i < count]. *)
Definition launched (grid block count i : Z) : bool :=
  (i <? grid * block) && (i <? count).

Section element.

(** The scalar arguments of a launch and the regions array. *)
Variables (scale : Q) (C H W outH outW out_dim : Z).
Variable rois : list fval.

(** Modelled from the spec: section 4.2, the unit of work of output
    element [index]: its value and the channel it records. *)
Definition forward_element (group_size : Z) (fm : list fval) (index : Z)
  : fval * Z :=
  let '(n, c_out, ph, pw) := unravel out_dim outH outW index in
  let reg := region_at rois n in
  let win := bin_window reg scale H W outH outW ph pw in
  let c := c_src group_size out_dim c_out ph pw in
  (pool fm C H W reg c win, c).

(** Modelled from the spec: section 4.3, the unit of work of gradient
    element [index]; the window is recomputed, the channel is the one the
    channel mapping recorded. *)
Definition backward_element (grad_output : list fval) (mapping : list Z)
    (grad : list fval) (index : Z) : list fval :=
  let '(n, _, ph, pw) := unravel out_dim outH outW index in
  let reg := region_at rois n in
  let win := bin_window reg scale H W outH outW ph pw in
  let c := default 0 (mapping !! Z.to_nat index) in
  scatter grad C H W reg c win (read_at grad_output index).

End element.

(** Modelled from the spec: section 4.4, every launched unit writes its
    own cell of an output array. *)
Definition write_each {A} (grid block count : Z) (f : Z -> A)
    (old : list A) : list A :=
  imap (fun i v => if launched grid block count (Z.of_nat i)
                   then f (Z.of_nat i) else v) old.

(** Modelled from the spec: the launched units of section 4.4, in
    ascending order. *)
Definition units (grid block count : Z) : list Z :=
  range 0 (Z.min count (grid * block)).

(** Modelled from the spec: the forward kernel (section 4.2) on device
    memory, with the arguments in the order [forward] packs them. *)
Definition forward_kernel : kernel := fun args grid block h =>
  match args with
  | [KInt count; KPtr px; KFloat32 (Fin scale); KInt C; KInt H; KInt W;
     KInt outH; KInt outW; KPtr prois; KInt out_dim; KInt gs;
     KPtr pout; KPtr pmap] =>
      match h !! px, h !! prois, h !! pout, h !! pmap with
      | Some (FloatBuf fm), Some (FloatBuf rois),
        Some (FloatBuf out), Some (IntBuf mapping) =>
          let el := forward_element scale C H W outH outW out_dim rois gs fm in
          [(pout, FloatBuf (write_each grid block count (fun i => fst (el i)) out));
           (pmap, IntBuf (write_each grid block count (fun i => snd (el i)) mapping))]
      | _, _, _, _ => []
      end
  | _ => []
  end.

(** Modelled from the spec: the backward kernel (section 4.3) on device
    memory, with the arguments in the order [backward] packs them; the
    additions into the gradient are done one unit after the other. *)
Definition backward_kernel : kernel := fun args grid block h =>
  match args with
  | [KInt count; KPtr pgo; KPtr pmap; KInt N; KFloat32 (Fin scale);
     KInt C; KInt H; KInt W; KInt outH; KInt outW; KInt out_dim;
     KPtr pgrad; KPtr prois] =>
      match h !! pgo, h !! pmap, h !! pgrad, h !! prois with
      | Some (FloatBuf go), Some (IntBuf mapping),
        Some (FloatBuf grad), Some (FloatBuf rois) =>
          [(pgrad,
            FloatBuf
              (foldl (backward_element scale C H W outH outW out_dim rois
                                       go mapping)
                     grad (units grid block count)))]
      | _, _, _, _ => []
      end
  | _ => []
  end.

End PSROIPool.

(** The two buffers the modelled forward kernel leaves behind in a run
    whose feature map is [fm], whose regions array is [rs] and whose
    spatial scale in 32 bits is [s]. *)
Definition fr_element (r : forward_run) (s : Q) (fm rs : list fval)
  : Z -> fval * Z :=
  PSROIPool.forward_element s (fr_C r) (fr_H r) (fr_W r)
                            (fr_oh r) (fr_ow r) (fr_out_dim r) rs (fr_gs r) fm.

Definition fr_output_buffer (r : forward_run) (s : Q) (fm rs : list fval)
  : list fval :=
  PSROIPool.write_each (GET_BLOCKS (fr_count r)) CUDA_NUM_THREADS (fr_count r)
                       (fun i => fst (fr_element r s fm rs i))
                       (repeat (Fin 0) (Z.to_nat (fr_count r))).

Definition fr_mapping_buffer (r : forward_run) (s : Q) (fm rs : list fval)
  : list Z :=
  PSROIPool.write_each (GET_BLOCKS (fr_count r)) CUDA_NUM_THREADS (fr_count r)
                       (fun i => snd (fr_element r s fm rs i))
                       (repeat 0 (Z.to_nat (fr_count r))).

(** ** A worked example *)

(** One image of four 4 x 4 channels, channel [c] filled with [c + 1]; one
    region covering the image; a 2 x 2 grid of bins, group size 2. *)
Definition ex_x : Tensor := mkTensor [1; 4; 4; 4] 0 true.
Definition ex_rois : Tensor := mkTensor [1; 5] 1 true.
Definition ex_fm : list fval :=
  c ← [1; 2; 3; 4]; repeat (Fin (inject_Z c)) 16.
Definition ex_regions : list fval := Fin <$> [0; 0; 0; 4; 4]%Q.
Definition ex_st : runtime := mkRuntime [FloatBuf ex_fm; FloatBuf ex_regions] [].
Definition ex_Info : psRoI_Info := mkInfo (Some 2) (Some 2) (Some 1%Q) (Some 2).
Definition ex_run : forward_run := mkRun ex_x ex_rois ex_st 1 4 4 4 1 2 2 2 1.

(** The same with group size 3, which does not fit 4 channels. *)
Definition ex_Info3 : psRoI_Info := mkInfo (Some 2) (Some 2) (Some 1%Q) (Some 3).
Definition ex_run3 : forward_run := mkRun ex_x ex_rois ex_st 1 4 4 4 1 3 2 2 1.


(** The same with the spatial scale 1/10, which 32 bits do not hold. *)
Definition ex_Info10 : psRoI_Info :=
  mkInfo (Some 2) (Some 2) (Some (1 # 10)%Q) (Some 2).
Definition ex_run10 : forward_run :=
  mkRun ex_x ex_rois ex_st 1 4 4 4 1 2 2 2 (1 # 10).

(** The same with a region that lies outside the image. *)
Definition ex_far : list fval := Fin <$> [0; 10; 10; 14; 14]%Q.
Definition ex_st_far : runtime := mkRuntime [FloatBuf ex_fm; FloatBuf ex_far] [].
Definition ex_run_far : forward_run :=
  mkRun ex_x ex_rois ex_st_far 1 4 4 4 1 2 2 2 1.

(** A gradient for the output of the example, stored after what forward
    allocated. *)
Definition ex_grad : Tensor := mkTensor [1; 1; 2; 2] 7 true.
Definition ex_st2 : runtime :=
  let st1 := fr_final PSROIPool.forward_kernel ex_run in
  mkRuntime (heap st1 ++ [FloatBuf (Fin <$> [1; 2; 3; 4]%Q)]) (launches st1).

(** Float values in lowest terms, to compare what a kernel computed. *)
Definition fnorm (v : fval) : fval :=
  match v with Fin q => Fin (Qred q) | NaN => NaN end.

(** Two regions over the same 2 x 2 pixels of a one-channel 2 x 2 image,
    pooled into one bin each, and a gradient of 1 for both. *)
Definition ex_two_regions : list fval :=
  Fin <$> [0; 0; 0; 2; 2; 0; 0; 0; 2; 2]%Q.
Definition ex_overlap_grad : list fval :=
  foldl (PSROIPool.backward_element 1 1 2 2 1 1 1 ex_two_regions
                                    [Fin 1; Fin 1] [0; 0])
        (repeat (Fin 0) 4) (PSROIPool.units 1 1024 2).

(** The worked example with no region at all, and with regions that are
    not contiguous (forward copies them behind data pointer 2). *)
Definition ex_rois0 : Tensor := mkTensor [0; 5] 1 true.
Definition ex_st0 : runtime := mkRuntime [FloatBuf ex_fm; FloatBuf []] [].
Definition ex_run0 : forward_run :=
  mkRun ex_x ex_rois0 ex_st0 1 4 4 4 0 2 2 2 1.
Definition ex_rois_nc : Tensor := mkTensor [1; 5] 1 false.
Definition ex_run_nc : forward_run :=
  mkRun ex_x (mkTensor [1; 5] 2 true)
        (mkRuntime (heap ex_st ++ [FloatBuf ex_regions]) [])
        1 4 4 4 1 2 2 2 1.

(** ** acitvate_PsROI_for_eval *)

(** [t.randn(shape).cuda()]: one value per element, [noise] standing for
    the random draws. *)
Definition randn (noise : nat -> Q) : list Z -> M runtime Tensor :=
  zeros_with (fun n => FloatBuf ((fun i => Fin (noise i)) <$> seq 0 (Z.to_nat n))).

(** The message of the ValueError for a row of [got] elements under a
    first row of [expected]. *)
Definition ragged_msg (expected got : nat) : string :=
  ("expected sequence of length " ++ decimal expected
     ++ " at dim 1 (got " ++ decimal got ++ ")")%string.

(** [torch.tensor(rows, dtype=torch.float)] of a list of rows, stored in
    32 bits: a row that has not the length of the first is refused. *)
Definition tensor_of_rows (rows : list (list Q)) : M runtime Tensor :=
  let cols := match rows with [] => 0%nat | r :: _ => length r end in
  match find (fun r => negb (Nat.eqb (length r) cols)) rows with
  | None =>
      p <- alloc (FloatBuf (float32_nearest <$> concat rows)) ;;
      ret (mkTensor [Z.of_nat (length rows); Z.of_nat cols] p true)
  | Some bad => raise (ValueError (ragged_msg cols (length bad)))
  end.

(** The elements of a buffer as 32-bit floats (type promotion of
    integers). *)
Definition as_floats (b : buffer) : list fval :=
  match b with
  | FloatBuf l => l
  | IntBuf l => (fun z => float32_nearest (inject_Z z)) <$> l
  end.

Definition read_floats (x : Tensor) : M runtime (list fval) :=
  st <- get ;;
  match heap st !! data_ptr x with
  | Some b => ret (as_floats b)
  | None => raise RuntimeError
  end.

Fixpoint read_all (ts : list Tensor) : M runtime (list fval) :=
  match ts with
  | [] => ret []
  | t :: ts => l <- read_floats t ;; r <- read_all ts ;; ret (l ++ r)
  end.

Fixpoint shape_eqb (a b : list Z) : bool :=
  match a, b with
  | [], [] => true
  | x :: a, y :: b => (x =? y) && shape_eqb a b
  | _, _ => false
  end.

(** [torch.cat(ts, dim=0)] with a float result: the tensors must have
    dimensions and agree on all but the first; an empty list is
    refused. *)
Definition cat (ts : list Tensor) : M runtime Tensor :=
  match ts with
  | [] => raise RuntimeError
  | t0 :: _ =>
      if forallb (fun t => match t_shape t with
                           | [] => false
                           | _ :: rest => shape_eqb rest (tail (t_shape t0))
                           end) ts
      then
        l <- read_all ts ;;
        p <- alloc (FloatBuf l) ;;
        ret (mkTensor
               (fold_right Z.add 0 ((fun t => default 0 (head (t_shape t))) <$> ts)
                  :: tail (t_shape t0))
               p true)
      else raise RuntimeError
  end.

(** [torch.reshape(x, (-1, 1))]: a view of a contiguous tensor, else of a
    contiguous copy. *)
Definition reshape_column (x : Tensor) : M runtime Tensor :=
  x <- contiguous x ;;
  ret (mkTensor [numel (t_shape x); 1] (data_ptr x) true).

(** The first [n] rows of [k] elements of a buffer. *)
Fixpoint chunks {A} (k n : nat) (l : list A) : list (list A) :=
  match n with
  | O => []
  | S n => take k l :: chunks k n (drop k l)
  end.

(** [torch.hstack((a, b))] of two matrices with as many rows, with a
    float result; other ranks are outside this model and refused. *)
Definition hstack (a b : Tensor) : M runtime Tensor :=
  match t_shape a, t_shape b with
  | [ra; ca], [rb; cb] =>
      if ra =? rb then
        la <- read_floats a ;;
        lb <- read_floats b ;;
        p <- alloc (FloatBuf
                      (concat (zip_with app
                                 (chunks (Z.to_nat ca) (Z.to_nat ra) la)
                                 (chunks (Z.to_nat cb) (Z.to_nat rb) lb)))) ;;
        ret (mkTensor [ra; ca + cb] p true)
      else raise RuntimeError
  | _, _ => raise RuntimeError
  end.

(** [x.cuda()] of a tensor that a variable holds: a copy on the device,
    the tensor on the host staying in memory. *)
Definition cuda (x : Tensor) : M runtime Tensor :=
  st <- get ;;
  match heap st !! data_ptr x with
  | Some b => p <- alloc b ;; ret (mkTensor (t_shape x) p (is_contiguous x))
  | None => raise RuntimeError
  end.

(** [x.detach()] and [x.requires_grad_()]: the same storage and shape. *)
Definition detach (x : Tensor) : Tensor := x.
Definition requires_grad_ (x : Tensor) : Tensor := x.

(** The fake data of [acitvate_PsROI_for_eval]: the feature map and the
    regions with their batch index in front. *)
Definition fake_data (noise : nat -> Q) : M runtime (Tensor * Tensor) :=
  let class_num := 21 in
  let group_size := 7 in
  let '(B, C, H, W, PH, PW) :=
    (2, class_num * group_size * group_size, 28, 28, 21, 21) in
  bottom_data <- randn noise [B; C; H; W] ;;
  r1 <- tensor_of_rows [[0; 0; 112; 112]; [7; 75; 503; 442]]%Q ;;
  r2 <- tensor_of_rows [[0; 0; 224; 224]]%Q ;;
  indices <- tensor_of_ints [0; 0; 1] ;;
  rois2 <- cat [r1; r2] ;;
  indices <- reshape_column indices ;;
  rois2_with_indices <- hstack indices rois2 ;;
  bottom_rois <- cuda rois2_with_indices ;;
  let x := requires_grad_ (detach bottom_data) in
  let rois := detach bottom_rois in
  ret (x, rois).

Section activation.

Variable forward_fn : kernel.
Variable psROI_backward_fn : kernel.

(** [output.sum().backward()]: the sum is computed (on rationals, as the
    kernels' arithmetic is) and stored, and the
    autograd engine calls [backward] with the gradient of the sum, a
    tensor of ones expanded to the shape of the output (not contiguous
    when it has more than one element); what [backward] returns goes to
    [x.grad]. *)
Definition sum_backward (ctx : Ctx) (output : Tensor) : M runtime unit :=
  vals <- read_floats output ;;
  total <- alloc (FloatBuf [foldl PSROIPool.fadd (Fin 0) vals]) ;;
  ones <- alloc (FloatBuf (repeat (Fin 1) (Z.to_nat (numel (t_shape output))))) ;;
  let grad_output :=
    mkTensor (t_shape output) ones (numel (t_shape output) <=? 1) in
  backward psROI_backward_fn ctx (Some grad_output) ;;;
  ret tt.

Definition acitvate_PsROI_for_eval (noise : nat -> Q) (model : PSRoIPooling2D)
  : M runtime unit :=
  data <- fake_data noise ;;
  let '(x, rois) := data in
  res <- PSRoIPooling2D_forward forward_fn model x rois ;;
  let '(ctx, output) := res in
  sum_backward ctx output.

End activation.

(** The regions array the fake data ends in. *)
Definition fake_regions : list fval :=
  Fin <$> [0; 0; 0; 112; 112; 0; 7; 75; 503; 442; 1; 0; 0; 224; 224]%Q.

(** The fake data in memory: the noise of [randn], and the run of
    [psRoI.forward] the warm-up call makes on a runtime of heap [h] and
    launches [ls]. *)
Definition noise_buffer (noise : nat -> Q) : buffer :=
  FloatBuf ((fun i => Fin (noise i)) <$> seq 0 (Z.to_nat (numel [2; 1029; 28; 28]))).

Definition act_x (h : list buffer) : Tensor :=
  mkTensor [2; 1029; 28; 28] (length h) true.
Definition act_rois (h : list buffer) : Tensor :=
  mkTensor [3; 5] (length h + 6) true.
Definition act_pre (noise : nat -> Q) (h : list buffer) (ls : list Launch) : runtime :=
  mkRuntime
       (h ++
          [noise_buffer noise;
           FloatBuf (Fin <$> [0; 0; 112; 112; 7; 75; 503; 442]%Q);
           FloatBuf (Fin <$> [0; 0; 224; 224]%Q);
           IntBuf [0; 0; 1];
           FloatBuf (Fin <$> [0; 0; 112; 112; 7; 75; 503; 442; 0; 0; 224; 224]%Q);
           FloatBuf fake_regions; FloatBuf fake_regions])
       ls.
Definition act_run noise h ls gs oh ow sc : forward_run :=
  mkRun (act_x h) (act_rois h) (act_pre noise h ls) 2 1029 28 28 3 gs oh ow sc.

(** * Part II: properties *)

(** ** Arithmetic of the launch grid *)

(** The narrowing to 32 bits on some values: a sixteenth is kept, a tenth
    is not; a half between two neighbours goes to the even one; past the
    largest finite value there is no finite number, and half the smallest
    positive value becomes zero. *)
Example float32_nearest_values :
  float32_nearest (1 # 16) = Fin (1 # 16) /\
  float32_nearest (1 # 10) = Fin (13421773 # 134217728) /\
  float32_nearest (- (1 # 3)) = Fin (- (11184811 # 33554432)) /\
  float32_nearest 16777217 = Fin 16777216 /\
  float32_nearest 16777219 = Fin 16777220 /\
  float32_nearest (2 ^ 128) = NaN /\
  float32_nearest (1 # 2 ^ 150) = Fin 0.
Proof. repeat split; vm_compute; reflexivity. Qed.

(** *** The narrowing is finite below [2 ^ 127] *)

Lemma Qpow2_pos e : (0 < 2 ^ e)%Q.
Proof. now apply Qpower_0_lt. Qed.

Lemma Qpow2_Z k : 0 <= k -> (inject_Z (2 ^ k) == 2 ^ k)%Q.
Proof. intros Hk. now rewrite Zpower_Qpower. Qed.

Lemma Qpow2_add a b : (2 ^ (a + b) == 2 ^ a * 2 ^ b)%Q.
Proof. apply Qpower_plus. discriminate. Qed.

(** [Qlog2] is the floor of the binary logarithm. *)
Lemma Qlog2_bounds q :
  (0 < q)%Q -> (2 ^ Qlog2 q <= q)%Q /\ (q < 2 ^ (Qlog2 q + 1))%Q.
Proof.
  intros Hq. destruct q as [n d].
  assert (Hn : 0 < n) by (unfold Qlt in Hq; cbn in Hq; lia).
  unfold Qlog2. cbn [Qnum Qden].
  set (ln := Z.log2 n). set (ld := Z.log2 (Z.pos d)).
  destruct (Z.log2_spec n Hn) as [Hn1 Hn2]. fold ln in Hn1, Hn2.
  destruct (Z.log2_spec (Z.pos d) ltac:(lia)) as [Hd1 Hd2].
  fold ld in Hd1, Hd2.
  assert (Hln : 0 <= ln) by apply Z.log2_nonneg.
  assert (Hld : 0 <= ld) by apply Z.log2_nonneg.
  clearbody ln ld.
  rewrite <- Z.add_1_r in Hn2, Hd2.
  assert (Hpn : 0 < 2 ^ ln) by (apply Z.pow_pos_nonneg; lia).
  assert (Hpd : 0 < 2 ^ ld) by (apply Z.pow_pos_nonneg; lia).
  (* the two bounds on n/d, cleared of the division *)
  assert (Hlow : (2 ^ (ln - ld - 1) <= n # d)%Q).
  { apply Qmult_le_l with (z := (2 ^ (ld + 1))%Q); [apply Qpow2_pos|].
    rewrite <- Qpow2_add. replace (ld + 1 + (ln - ld - 1)) with ln by lia.
    rewrite <- (Qpow2_Z ln), <- (Qpow2_Z (ld + 1)) by lia.
    unfold Qle, Qmult, inject_Z; cbn [Qnum Qden].
    rewrite Pos.mul_1_l, Z.mul_1_r. nia. }
  assert (Hup : (n # d < 2 ^ (ln - ld + 1))%Q).
  { apply Qmult_lt_l with (z := (2 ^ ld)%Q); [apply Qpow2_pos|].
    rewrite <- Qpow2_add. replace (ld + (ln - ld + 1)) with (ln + 1) by lia.
    rewrite <- (Qpow2_Z (ln + 1)), <- (Qpow2_Z ld) by lia.
    unfold Qlt, Qmult, inject_Z; cbn [Qnum Qden].
    rewrite Pos.mul_1_l, Z.mul_1_r. nia. }
  destruct (Qle_bool (2 ^ (ln - ld)) (n # d)) eqn:E.
  - apply Qle_bool_iff in E. split; [exact E|exact Hup].
  - assert (~ (2 ^ (ln - ld) <= n # d)%Q) as Hnle.
    { intros H. apply Qle_bool_iff in H. congruence. }
    apply Qnot_le_lt in Hnle. split; [exact Hlow|].
    now replace (ln - ld - 1 + 1) with (ln - ld) by lia.
Qed.

Lemma Qround_even_le q : Qround_even q <= Qfloor q + 1.
Proof.
  unfold Qround_even.
  destruct (q - inject_Z (Qfloor q) ?= 1 # 2)%Q; [destruct (Z.even _)|..]; lia.
Qed.

(** Every scale below [2 ^ 127] in absolute value has a finite value in
    32 bits. *)
Lemma float32_nearest_finite q :
  (Qabs q < 2 ^ 127)%Q -> exists s, float32_nearest q = Fin s.
Proof.
  intros Hq. unfold float32_nearest.
  destruct (Qeq_bool q 0) eqn:E0; [eauto|].
  assert (Ha : (0 < Qabs q)%Q).
  { destruct (Qlt_le_dec 0 (Qabs q)) as [|Hle]; [assumption|].
    exfalso. apply Qabs_Qle_condition in Hle as [H1 H2].
    assert (q == 0)%Q as Hq0 by (apply Qle_antisym; assumption).
    apply Qeq_bool_iff in Hq0. congruence. }
  destruct (Qlog2_bounds _ Ha) as [Hl Hu].
  set (e := Z.max (Qlog2 (Qabs q)) (-126)).
  assert (He : e <= 126).
  { assert (Qlog2 (Qabs q) < 127).
    { apply (Qpower_lt_compat_l_inv 2); [|reflexivity].
      eapply Qle_lt_trans; eassumption. }
    unfold e. lia. }
  set (ulp := (2 ^ (e - 23))%Q).
  assert (Hulp : (0 < ulp)%Q) by apply Qpow2_pos.
  set (m := Qround_even (Qabs q / ulp)).
  assert (Hm : m <= 2 ^ 24).
  { assert (Qabs q / ulp < 2 ^ 24)%Q as Hlt.
    { apply Qlt_shift_div_r; [exact Hulp|].
      unfold ulp. rewrite <- Qpow2_add.
      eapply Qlt_le_trans; [exact Hu|].
      apply Qpower_le_compat_l; [unfold e; lia|discriminate]. }
    pose proof (Qround_even_le (Qabs q / ulp)) as Hr. fold m in Hr.
    assert (Qfloor (Qabs q / ulp) < 2 ^ 24).
    { apply Z.lt_nge. intros Hge.
      assert (inject_Z (2 ^ 24) <= Qabs q / ulp)%Q as Hc.
      { eapply Qle_trans; [|apply Qfloor_le].
        rewrite <- Zle_Qle. exact Hge. }
      rewrite (Qpow2_Z 24) in Hc by lia.
      apply (Qlt_not_le _ _ Hlt). exact Hc. }
    lia. }
  assert (Hv : (inject_Z m * ulp < 2 ^ 128)%Q).
  { eapply Qle_lt_trans with (y := (2 ^ (e + 1))%Q).
    - replace (e + 1) with (24 + (e - 23)) by lia. rewrite Qpow2_add.
      apply Qmult_le_compat_r; [|now apply Qlt_le_weak].
      rewrite <- (Qpow2_Z 24) by lia. now rewrite <- Zle_Qle.
    - apply Qpower_lt_compat_l; [lia|reflexivity]. }
  destruct (Qle_bool (2 ^ 128) (inject_Z m * ulp)) eqn:E; [|eauto].
  apply Qle_bool_iff in E. exfalso. now apply (Qlt_not_le _ _ Hv).
Qed.

(** The two messages of a failed unpacking. *)
Example unpack_msg_values :
  unpack_msg 4 3 = "not enough values to unpack (expected 4, got 3)"%string /\
  unpack_msg 5 0 = "not enough values to unpack (expected 5, got 0)"%string /\
  unpack_msg 4 5 = "too many values to unpack (expected 4)"%string.
Proof. repeat split; reflexivity. Qed.

Lemma numel4 a b c d : numel [a; b; c; d] = a * b * c * d.
Proof. unfold numel; simpl; ring. Qed.

Lemma numel1 a : numel [a] = a.
Proof. unfold numel; simpl; ring. Qed.

Lemma numel_nonneg shape :
  forallb (fun d => 0 <=? d) shape = true -> 0 <= numel shape.
Proof.
  induction shape as [|d shape IH]; simpl; intros Hs; [unfold numel; simpl; lia|].
  apply andb_prop in Hs as [Hd Hs]. apply Z.leb_le in Hd.
  specialize (IH Hs). unfold numel in *. cbn [fold_right]. nia.
Qed.

Lemma GET_BLOCKS_bounds n :
  (GET_BLOCKS n - 1) * CUDA_NUM_THREADS < n <= GET_BLOCKS n * CUDA_NUM_THREADS.
Proof.
  unfold GET_BLOCKS, GET_BLOCKS_K, CUDA_NUM_THREADS.
  pose proof (Z.div_mod (n + 1024 - 1) 1024 ltac:(lia)) as E.
  pose proof (Z.mod_pos_bound (n + 1024 - 1) 1024 ltac:(lia)) as Hm.
  lia.
Qed.

Lemma GET_BLOCKS_ceiling n : GET_BLOCKS n = Qceiling (n # 1024).
Proof.
  unfold Qceiling, Qfloor, Qopp; simpl.
  unfold GET_BLOCKS, GET_BLOCKS_K, CUDA_NUM_THREADS.
  pose proof (Z.div_mod (n + 1024 - 1) 1024 ltac:(lia)) as E1.
  pose proof (Z.mod_pos_bound (n + 1024 - 1) 1024 ltac:(lia)) as H1.
  pose proof (Z.div_mod (- n) 1024 ltac:(lia)) as E2.
  pose proof (Z.mod_pos_bound (- n) 1024 ltac:(lia)) as H2.
  lia.
Qed.

(** ** The monad's primitives on the runtime *)

Lemma length_apply_writes ws h : length (apply_writes ws h) = length h.
Proof.
  unfold apply_writes. revert h.
  induction ws as [|[p b] ws IH]; intros h; simpl; [done|].
  now rewrite IH, length_insert.
Qed.

Lemma contiguous_cases x st :
  (is_contiguous x = true /\ contiguous x st = (Ok x, st)) \/
  (is_contiguous x = false /\ heap st !! data_ptr x = None /\
   contiguous x st = (Raise RuntimeError, st)) \/
  (is_contiguous x = false /\ exists b, heap st !! data_ptr x = Some b /\
   contiguous x st =
     (Ok (mkTensor (t_shape x) (length (heap st)) true),
      mkRuntime (heap st ++ [b]) (launches st))).
Proof.
  unfold contiguous, bind, get, alloc, ret, raise.
  destruct (is_contiguous x); [left; auto|right].
  destruct (heap st !! data_ptr x) as [b|]; [right|left]; eauto.
Qed.

Lemma contiguous_state x st r st' :
  contiguous x st = (r, st') ->
  heap st' = heap st ++ contiguous_copy x (heap st) /\ launches st' = launches st.
Proof.
  unfold contiguous_copy.
  destruct (contiguous_cases x st) as [[Hc E]|[(Hc & Hn & E)|(Hc & b & Hb & E)]];
    rewrite E, Hc; intros [= <- <-]; simpl.
  - now rewrite app_nil_r.
  - now rewrite Hn, app_nil_r.
  - now rewrite Hb.
Qed.

Lemma contiguous_Ok x st x' st' :
  contiguous x st = (Ok x', st') ->
  t_shape x' = t_shape x /\ is_contiguous x' = true /\
  (data_ptr x' = data_ptr x \/ data_ptr x' = length (heap st)).
Proof.
  destruct (contiguous_cases x st) as [[Hc E]|[(Hc & Hn & E)|(Hc & b & Hb & E)]];
    rewrite E; intros [= <- <-]; simpl; auto.
Qed.

(** ** What a forward call that returns has done *)

Section psRoI_facts.

Variable forward_fn : kernel.
Variable psROI_backward_fn : kernel.

Lemma forward_Ok_run ctx x rois Info st r :
  fr_reads r x rois Info st -> fr_passes r ->
  forward forward_fn ctx x rois Info st
  = (Ok (fr_ctx forward_fn r, fr_output r), fr_final forward_fn r).
Proof.
  intros (sa & Ex & Er & Hx & Hn & ->) (Hg & Hm & Hs).
  pose proof (contiguous_Ok _ _ _ _ Ex) as (Sx & _ & _).
  pose proof (contiguous_Ok _ _ _ _ Er) as (Sr & _ & _).
  assert (Hc : (0 <=? fr_count r) = true).
  { apply Z.leb_le. now apply numel_nonneg. }
  unfold forward, bind. rewrite Ex, Er.
  rewrite Sx, Hx. simpl. unfold size. rewrite Sr, Hn. simpl.
  unfold lift, py_mod, py_floordiv.
  destruct (Z.eqb_spec (fr_gs r * fr_gs r) 0) as [|_]; [contradiction|].
  rewrite Hm. simpl.
  unfold zeros, zeros_int, zeros_with, bind.
  fold (fr_out_dim r). fold (fr_shape r). rewrite Hs. simpl.
  fold (fr_shape r). fold (fr_count r). rewrite Hc. simpl.
  unfold fr_final, fr_ctx, fr_output, fr_heap_launched, fr_heap_at_launch,
    fr_launch, fr_args, fr_int_info, fr_in_size, fr_scale, fr_mapping,
    save_for_backward.
  rewrite !length_app. simpl.
  rewrite <- !app_assoc. simpl.
  rewrite !numel1, !Nat.add_1_r. reflexivity.
Qed.

(** Conversely, a call that returns went through such a run. *)
Lemma forward_Ok_inv ctx x rois Info st ctx' out st1 :
  forward forward_fn ctx x rois Info st = (Ok (ctx', out), st1) ->
  exists r,
    fr_reads r x rois Info st /\ fr_passes r /\
    ctx' = fr_ctx forward_fn r /\ out = fr_output r /\
    st1 = fr_final forward_fn r.
Proof.
  intros Hf.
  assert (exists r, fr_reads r x rois Info st /\ fr_passes r) as (r & Hr & Hp).
  { revert Hf. unfold forward, bind.
    destruct (contiguous x st) as [[x'|e] sa] eqn:Ex; [|discriminate].
    destruct (contiguous rois sa) as [[rois'|e] sb] eqn:Er; [|discriminate].
    pose proof (contiguous_Ok _ _ _ _ Ex) as (Sx & _ & _).
    pose proof (contiguous_Ok _ _ _ _ Er) as (Sr & _ & _).
    rewrite Sx. unfold unpack4.
    destruct (t_shape x) as [|B [|C [|H [|W [|? ?]]]]] eqn:Hx;
      try discriminate.
    cbn [ret]. unfold size. rewrite Sr.
    destruct (t_shape rois !! 0%nat) as [N|] eqn:Hn; [|discriminate].
    cbn [ret]. destruct Info as [[oh|] [ow|] [sc|] [gs|]];
      try discriminate; cbn [attr group_size outh outw spatial_scale ret raise];
      unfold lift, py_mod, py_floordiv;
      destruct (Z.eqb_spec (gs * gs) 0) as [|Hg]; try discriminate;
      destruct (Z.eqb_spec (C mod (gs * gs)) 0) as [Hm|]; try discriminate;
      cbn [negb]; unfold zeros, zeros_with;
      destruct (forallb (fun d => 0 <=? d) [N; C / (gs * gs); oh; ow]) eqn:Hs;
      try discriminate.
    - intros _.
      exists (mkRun x' rois' sb B C H W N gs oh ow sc).
      split; [exists sa|]; repeat split; assumption.
    - unfold zeros_int, zeros_with, bind, alloc, ret, raise. cbn.
      destruct (0 <=? _); discriminate. }
  rewrite (forward_Ok_run ctx x rois Info st r Hr Hp) in Hf.
  injection Hf as <- <- <-. eauto 10.
Qed.

(** *** The backward call paired with a run *)

Lemma fr_final_saved r :
  heap (fr_final forward_fn r) !! data_ptr (fr_int_info forward_fn r)
  = Some (IntBuf [fr_count r; fr_N r; fr_out_dim r; fr_oh r; fr_ow r]) /\
  heap (fr_final forward_fn r) !! data_ptr (fr_in_size forward_fn r)
  = Some (IntBuf [fr_B r; fr_C r; fr_H r; fr_W r]) /\
  heap (fr_final forward_fn r) !! data_ptr (fr_scale forward_fn r)
  = Some (FloatBuf [float32 (Some (fr_sc r))]).
Proof.
  unfold fr_final, fr_int_info, fr_in_size, fr_scale. cbn [heap data_ptr].
  repeat split.
  - rewrite lookup_app_r by lia. now rewrite Nat.sub_diag.
  - rewrite lookup_app_r by lia.
    now replace (S _ - _)%nat with 1%nat by lia.
  - rewrite lookup_app_r by lia.
    now replace (S (S _) - _)%nat with 2%nat by lia.
Qed.

Lemma contiguous_lookup x st x' st' p b :
  contiguous x st = (Ok x', st') ->
  heap st !! p = Some b -> heap st' !! p = Some b.
Proof.
  intros E Hp. apply contiguous_state in E as [-> _].
  now apply lookup_app_l_Some.
Qed.

Lemma backward_after_run r go go' st2 pre :
  saved_intact (fr_ctx forward_fn r) (fr_final forward_fn r) st2 ->
  contiguous go st2 = (Ok go', pre) ->
  forallb (fun d => 0 <=? d) (bk_in_size r) = true ->
  backward psROI_backward_fn (fr_ctx forward_fn r) (Some go) st2
  = (Ok (Some (bk_grad_input r pre), None, None),
     bk_final psROI_backward_fn r go' pre).
Proof.
  intros Hsaved Ego Hdims.
  destruct (fr_final_saved r) as (H1 & H2 & H3).
  unfold saved_intact, fr_ctx in Hsaved. cbn [saved_tensors] in Hsaved.
  apply Forall_cons in Hsaved as [E1 Hsaved].
  apply Forall_cons in Hsaved as [E2 Hsaved].
  apply Forall_cons in Hsaved as [E3 _].
  rewrite <- E1 in H1. rewrite <- E2 in H2. rewrite <- E3 in H3.
  apply (contiguous_lookup _ _ _ _ _ _ Ego) in H1, H2, H3.
  unfold backward, bind. rewrite Ego.
  unfold fr_ctx. cbn [saved_tensors unpack5 ret].
  unfold tolist, float32_of_tensor, bind, get.
  rewrite H1. cbn [ret unpack5]. rewrite H2. cbn [ret unpack4].
  unfold zeros, zeros_with. fold (bk_in_size r). rewrite Hdims.
  unfold bind, alloc. cbn [ret heap launches]. 
  rewrite lookup_app_l_Some with (x := FloatBuf [float32 (Some (fr_sc r))])
    by exact H3.
  reflexivity.
Qed.

End psRoI_facts.

(** * The properties of the specification *)

(** ** Configuration *)


Lemma set_para_pair self h w rest scale gs :
  set_para (Iter (h :: w :: rest)) scale gs self
  = match gs with
    | Some g => (Ok tt, mkInfo (Some h) (Some w) (Some scale) (Some g))
    | None =>
        if h =? w
        then (Ok tt, mkInfo (Some h) (Some w) (Some scale) (Some h))
        else (Raise (ValueError pool_msg),
              mkInfo (Some h) (Some w) (Some scale) (group_size self))
    end.
Proof.
  unfold set_para, bind; cbn. destruct gs as [g|]; [reflexivity|].
  now destruct (h =? w).
Qed.

(** C2, as stated, fails: called on a fresh object with the pool size
    [(3, 4)] and no group size, [set_para] raises, and the object has by
    then been given [outh = 3], [outw = 4] and the spatial scale; it is no
    longer the object it was. *)
Lemma set_para_raises_after_storing :
  set_para (Iter [3; 4]) 1%Q None psRoI_Info_init
  = (Raise (ValueError pool_msg),
     mkInfo (Some 3) (Some 4) (Some 1%Q) None) /\
  mkInfo (Some 3) (Some 4) (Some 1%Q) None <> psRoI_Info_init.
Proof. split; [reflexivity|discriminate]. Qed.

(** C2, amended.  With [group_size] omitted and [outH <> outW], [set_para]
    raises ValueError after it has stored [outh], [outw] and
    [spatial_scale] on the object, whose [group_size] keeps its former
    value; the constructor of [PSRoIPooling2D] then returns no module.
    With [outH = outW] the configuration gets [group_size = outH].  A
    [group_size] that is given is stored as it is, whatever [outH] and
    [outW] are. *)
Theorem set_para_group_size (self : psRoI_Info) (h w : Z) (rest : list Z)
    (scale : Q) :
  (h <> w ->
   set_para (Iter (h :: w :: rest)) scale None self
   = (Raise (ValueError pool_msg),
      mkInfo (Some h) (Some w) (Some scale) (group_size self)) /\
   PSRoIPooling2D_init (Iter (h :: w :: rest)) scale None
   = Raise (ValueError pool_msg)) /\
  (h = w ->
   set_para (Iter (h :: w :: rest)) scale None self
   = (Ok tt, mkInfo (Some h) (Some w) (Some scale) (Some h))) /\
  (forall g : Z,
   set_para (Iter (h :: w :: rest)) scale (Some g) self
   = (Ok tt, mkInfo (Some h) (Some w) (Some scale) (Some g))).
Proof.
  split; [|split].
  - intros Hne. unfold PSRoIPooling2D_init, t_pair, t_ntuple.
    rewrite !set_para_pair. now destruct (Z.eqb_spec h w).
  - intros ->. rewrite set_para_pair. now rewrite Z.eqb_refl.
  - intros g. now rewrite set_para_pair.
Qed.

(** The two outcomes on concrete pool sizes: [(7, 3)] on an object whose
    group size was 5, and [(7, 7)] on a fresh object. *)
Lemma set_para_group_size_witness :
  set_para (Iter [7; 3]) (1 # 16) None (mkInfo None None None (Some 5))
  = (Raise (ValueError pool_msg),
     mkInfo (Some 7) (Some 3) (Some (1 # 16)%Q) (Some 5)) /\
  set_para (Iter [7; 7]) (1 # 16) None psRoI_Info_init
  = (Ok tt, mkInfo (Some 7) (Some 7) (Some (1 # 16)%Q) (Some 7)).
Proof.
  pose proof (set_para_group_size (mkInfo None None None (Some 5)) 7 3 []
                                  (1 # 16)) as (H1 & _ & _).
  pose proof (set_para_group_size psRoI_Info_init 7 7 [] (1 # 16))
    as (_ & H2 & _).
  split; [apply H1; lia | apply H2; reflexivity].
Defined.

(** ** Forward and backward *)

Section psRoI_properties.

Variable forward_fn : kernel.
Variable psROI_backward_fn : kernel.

Lemma fr_reads_pre r x rois Info st :
  fr_reads r x rois Info st ->
  heap (fr_pre r)
  = heap st ++ contiguous_copy x (heap st)
      ++ contiguous_copy rois (heap st ++ contiguous_copy x (heap st)) /\
  launches (fr_pre r) = launches st.
Proof.
  intros (sa & Ex & Er & _).
  apply contiguous_state in Ex as [Hx Lx].
  apply contiguous_state in Er as [Hr Lr].
  rewrite Hr, Hx, Lr, Lx. now rewrite app_assoc.
Qed.

Lemma forward_channel_raise ctx x rois Info st r :
  fr_reads r x rois Info st ->
  fr_gs r * fr_gs r = 0 \/ fr_C r mod (fr_gs r * fr_gs r) <> 0 ->
  forward forward_fn ctx x rois Info st
  = (Raise (if fr_gs r * fr_gs r =? 0 then ZeroDivisionError
            else ValueError channel_msg), fr_pre r).
Proof.
  intros (sa & Ex & Er & Hx & Hn & ->) Hbad.
  pose proof (contiguous_Ok _ _ _ _ Ex) as (Sx & _ & _).
  pose proof (contiguous_Ok _ _ _ _ Er) as (Sr & _ & _).
  unfold forward, bind. rewrite Ex, Er.
  rewrite Sx, Hx. simpl. unfold size. rewrite Sr, Hn. simpl.
  unfold lift, py_mod.
  destruct (Z.eqb_spec (fr_gs r * fr_gs r) 0) as [|Hg]; [reflexivity|].
  destruct Hbad as [|Hm]; [contradiction|].
  destruct (Z.eqb_spec (fr_C r mod (fr_gs r * fr_gs r)) 0); [contradiction|].
  reflexivity.
Qed.

(** C1.  On a feature map with [C] channels and a configuration with
    group size [gs <> 0]: when [gs * gs] does not divide [C], forward
    raises ValueError in the runtime state reached once the two inputs
    are contiguous, which holds the buffers that were there, the
    contiguous copies of the inputs if any were made, and no launch:
    neither the output nor the channel mapping has been allocated and no
    kernel has written.  When [gs * gs] divides [C], the call goes on
    with [out_dim = C / (gs * gs)] and returns an output of shape
    [(N, out_dim, outh, outw)].  (With [gs = 0] the test itself raises
    ZeroDivisionError, in the same state.) *)
Theorem forward_channel_check ctx x rois Info st r :
  fr_reads r x rois Info st ->
  (heap (fr_pre r)
   = heap st ++ contiguous_copy x (heap st)
       ++ contiguous_copy rois (heap st ++ contiguous_copy x (heap st)) /\
   launches (fr_pre r) = launches st) /\
  (fr_gs r <> 0 -> fr_C r mod (fr_gs r * fr_gs r) <> 0 ->
   forward forward_fn ctx x rois Info st
   = (Raise (ValueError channel_msg), fr_pre r)) /\
  (fr_gs r = 0 ->
   forward forward_fn ctx x rois Info st
   = (Raise ZeroDivisionError, fr_pre r)) /\
  (fr_gs r <> 0 -> fr_C r mod (fr_gs r * fr_gs r) = 0 ->
   0 <= fr_N r -> 0 <= fr_C r -> 0 <= fr_oh r -> 0 <= fr_ow r ->
   forward forward_fn ctx x rois Info st
   = (Ok (fr_ctx forward_fn r, fr_output r), fr_final forward_fn r) /\
   t_shape (fr_output r)
   = [fr_N r; fr_C r / (fr_gs r * fr_gs r); fr_oh r; fr_ow r]).
Proof.
  intros Hr. split; [now apply (fr_reads_pre r x rois Info st)|].
  split; [|split].
  - intros Hg Hm.
    rewrite (forward_channel_raise ctx x rois Info st r Hr) by (now right).
    destruct (Z.eqb_spec (fr_gs r * fr_gs r) 0); [nia|reflexivity].
  - intros Hg.
    rewrite (forward_channel_raise ctx x rois Info st r Hr)
      by (left; rewrite Hg; reflexivity).
    now rewrite Hg.
  - intros Hg Hm HN HC Hh Hw. split; [|reflexivity].
    apply forward_Ok_run; [assumption|].
    repeat split; [nia|assumption|].
    unfold fr_shape, fr_out_dim. cbn [forallb].
    assert (0 <= fr_C r / (fr_gs r * fr_gs r)) by (apply Z.div_pos; nia).
    repeat (apply andb_true_intro; split); try (apply Z.leb_le; assumption).
    reflexivity.
Qed.

Lemma fr_count_eq r :
  fr_count r = fr_N r * fr_out_dim r * fr_oh r * fr_ow r.
Proof. apply numel4. Qed.

Lemma fr_reads_rois r x rois Info st :
  fr_reads r x rois Info st ->
  t_shape (fr_rois r) = t_shape rois /\ is_contiguous (fr_rois r) = true.
Proof.
  intros (sa & _ & Er & _).
  apply contiguous_Ok in Er as (? & ? & _). now split.
Qed.

(** C4.  With no incoming gradient, backward returns at once: the
    gradient it answers for the feature map is None, the framework's
    value for a gradient that is zero, no exception is raised, and the
    runtime is left as it was: nothing is allocated and no kernel is
    launched. *)
Theorem backward_absent_gradient (ctx : Ctx) (st : runtime) :
  backward psROI_backward_fn ctx None st = (Ok (None, None, None), st).
Proof. reflexivity. Qed.

(** The backward call paired with a forward call that returned. *)
Lemma backward_after_forward x rois Info st ctx' st1 r go go' st2 pre :
  fr_reads r x rois Info st ->
  ctx' = fr_ctx forward_fn r -> st1 = fr_final forward_fn r ->
  saved_intact ctx' st1 st2 ->
  contiguous go st2 = (Ok go', pre) ->
  Forall (fun d => 0 <= d) (t_shape x) ->
  backward psROI_backward_fn ctx' (Some go) st2
  = (Ok (Some (bk_grad_input r pre), None, None),
     bk_final psROI_backward_fn r go' pre).
Proof.
  intros (sa & _ & _ & Hx & _) -> -> Hs Ego Hpos.
  apply (backward_after_run forward_fn); [assumption..|].
  unfold bk_in_size. rewrite <- Hx.
  apply forallb_forall. intros d Hd. apply Z.leb_le.
  rewrite Forall_forall in Hpos. apply Hpos. now apply list_elem_of_In.
Qed.


(** C8.  Whatever backward returns, the gradients for the regions and
    for the configuration are None, and there is a gradient for the
    feature map exactly when a gradient came in; and the backward call
    paired with a forward call does return, with the gradient of the
    feature map only. *)
Theorem backward_only_input_gradient :
  (forall ctx grad_output st g1 g2 g3 st',
      backward psROI_backward_fn ctx grad_output st = (Ok (g1, g2, g3), st') ->
      g2 = None /\ g3 = None /\ (is_Some g1 <-> is_Some grad_output)) /\
  (forall ctx x rois Info st ctx' out st1 go go' st2 pre,
      forward forward_fn ctx x rois Info st = (Ok (ctx', out), st1) ->
      saved_intact ctx' st1 st2 ->
      contiguous go st2 = (Ok go', pre) ->
      Forall (fun d => 0 <= d) (t_shape x) ->
      exists g st3,
        backward psROI_backward_fn ctx' (Some go) st2
        = (Ok (Some g, None, None), st3)).
Proof.
  split.
  - intros ctx [go|] st g1 g2 g3 st'.
    + unfold backward, bind, unpack5, unpack4, tolist, float32_of_tensor, zeros,
        zeros_with, launch, alloc, get, ret, raise.
      repeat match goal with
             | |- context [match ?e with _ => _ end] =>
                 destruct e eqn:?; try discriminate
             end.
      intros [= <- <- <- <-]. repeat split; eauto.
    + intros [= <- <- <- <-]. repeat split; intros [? ?]; discriminate.
  - intros ctx x rois Info st ctx' out st1 go go' st2 pre Hf Hs Ego Hpos.
    apply forward_Ok_inv in Hf as (r & Hr & Hp & E1 & E2 & E3).
    exists (bk_grad_input r pre), (bk_final psROI_backward_fn r go' pre).
    now apply (backward_after_forward x rois Info st ctx' st1 r).
Qed.

(** C7, as stated, fails: the state a call saves is not independent of
    the caller, nor of the other calls.  Two forward calls on the worked
    example, one after the other and each on a context of its own, save
    as their regions one and the same tensor, the caller's, whose storage
    was there before either call; the channel mappings they save are two
    tensors. *)
Lemma forward_shares_regions :
  exists ctx1 out1 st1 ctx2 out2 st2,
    forward PSROIPool.forward_kernel (mkCtx []) ex_x ex_rois ex_Info ex_st
    = (Ok (ctx1, out1), st1) /\
    forward PSROIPool.forward_kernel (mkCtx []) ex_x ex_rois ex_Info st1
    = (Ok (ctx2, out2), st2) /\
    saved_tensors ctx1 !! 3%nat = Some ex_rois /\
    saved_tensors ctx2 !! 3%nat = Some ex_rois /\
    heap ex_st !! data_ptr ex_rois = Some (FloatBuf ex_regions) /\
    saved_tensors ctx1 !! 4%nat <> saved_tensors ctx2 !! 4%nat.
Proof.
  eexists _, _, _, _, _, _.
  split; [vm_compute; reflexivity|].
  split; [vm_compute; reflexivity|].
  split; [reflexivity|]. split; [reflexivity|]. split; [reflexivity|].
  vm_compute. intros H. discriminate H.
Qed.

(** How the saved regions relate to the caller's. *)
Lemma fr_reads_regions r x rois Info st :
  fr_reads r x rois Info st ->
  t_shape (fr_rois r) = t_shape rois /\
  (is_contiguous rois = true -> fr_rois r = rois) /\
  (is_contiguous rois = false ->
   heap st !! data_ptr (fr_rois r) = None /\
   data_ptr (fr_rois r) <> data_ptr rois /\
   is_Some (heap (fr_pre r) !! data_ptr rois) /\
   heap (fr_pre r) !! data_ptr (fr_rois r)
   = heap (fr_pre r) !! data_ptr rois).
Proof.
  intros (sa & Ex & Er & _).
  pose proof (contiguous_state _ _ _ _ Ex) as [Hsa _].
  destruct (contiguous_cases rois sa)
    as [[Hc E]|[(Hc & Hn & E)|(Hc & b & Hb & E)]];
    rewrite E in Er; try discriminate; injection Er as E1 E2.
  - rewrite <- E1. split; [reflexivity|]. split; [reflexivity|].
    rewrite Hc. discriminate.
  - rewrite <- E1, <- E2. cbn [t_shape data_ptr heap].
    split; [reflexivity|]. split; [rewrite Hc; discriminate|].
    intros _. pose proof (lookup_lt_Some _ _ _ Hb) as Hlt.
    split; [|split; [|split]].
    + apply lookup_ge_None_2. rewrite Hsa, length_app. lia.
    + lia.
    + exists b. now apply lookup_app_l_Some.
    + rewrite lookup_app_r by lia. rewrite Nat.sub_diag. cbn.
      symmetry. now apply lookup_app_l_Some.
Qed.

(** C7, amended.  A forward call that returns leaves in its context
    exactly five saved tensors: the integers
    [(count, N, out_dim, outh, outw)], the shape of the feature map, the
    spatial scale in 32 bits, the regions array and the channel mapping,
    a flat tensor of [count = N * out_dim * outh * outw] elements.  The
    four tensors the call creates for this have storage that did not
    exist before the call, each its own.  The regions array is not a
    snapshot: it is the caller's own tensor when that one is contiguous,
    and a contiguous copy made by the call otherwise.  The paired
    backward call packs the arguments of its kernel from exactly these
    saved values, the incoming gradient and the gradient it allocates. *)
Theorem forward_saved_state ctx x rois Info st ctx' out st1 :
  forward forward_fn ctx x rois Info st = (Ok (ctx', out), st1) ->
  exists r int_info in_size scale mapping,
    fr_reads r x rois Info st /\
    let out_dim := fr_C r / (fr_gs r * fr_gs r) in
    let count := fr_N r * out_dim * fr_oh r * fr_ow r in
    saved_tensors ctx' = [int_info; in_size; scale; fr_rois r; mapping] /\
    heap st1 !! data_ptr int_info
    = Some (IntBuf [count; fr_N r; out_dim; fr_oh r; fr_ow r]) /\
    heap st1 !! data_ptr in_size = Some (IntBuf (t_shape x)) /\
    heap st1 !! data_ptr scale
    = Some (FloatBuf [float32_nearest (fr_sc r)]) /\
    t_shape mapping = [count] /\
    Forall (fun t => heap st !! data_ptr t = None)
           [int_info; in_size; scale; mapping] /\
    NoDup (data_ptr <$> [int_info; in_size; scale; mapping]) /\
    t_shape (fr_rois r) = t_shape rois /\
    (is_contiguous rois = true -> fr_rois r = rois) /\
    (is_contiguous rois = false ->
     heap st !! data_ptr (fr_rois r) = None /\
     data_ptr (fr_rois r) <> data_ptr rois) /\
    forall go go' st2 pre,
      saved_intact ctx' st1 st2 ->
      contiguous go st2 = (Ok go', pre) ->
      Forall (fun d => 0 <= d) (t_shape x) ->
      exists g st3,
        backward psROI_backward_fn ctx' (Some go) st2
        = (Ok (Some g, None, None), st3) /\
        launches st3
        = launches pre ++
          [mkLaunch PSROIPoolBackward
             [KInt count; KPtr (data_ptr go'); KPtr (data_ptr mapping);
              KInt (fr_N r); KFloat32 (float32_nearest (fr_sc r));
              KInt (fr_C r); KInt (fr_H r); KInt (fr_W r);
              KInt (fr_oh r); KInt (fr_ow r); KInt out_dim;
              KPtr (data_ptr g); KPtr (data_ptr (fr_rois r))]
             (CUDA_NUM_THREADS, 1, 1)
             (GET_BLOCKS (numel (t_shape go')), 1, 1)].
Proof.
  intros Hf. apply forward_Ok_inv in Hf as (r & Hr & Hp & -> & -> & ->).
  exists r, (fr_int_info forward_fn r), (fr_in_size forward_fn r),
    (fr_scale forward_fn r), (fr_mapping r).
  destruct (fr_final_saved forward_fn r) as (H1 & H2 & H3).
  pose proof (fr_reads_pre r x rois Info st Hr) as [Hpre _].
  destruct (fr_reads_regions r x rois Info st Hr) as (R1 & R2 & R3).
  assert (Hlen : (length (heap st) <= length (heap (fr_pre r)))%nat).
  { rewrite Hpre, length_app. lia. }
  assert (Hl : length (fr_heap_launched forward_fn r)
               = S (S (length (heap (fr_pre r))))).
  { unfold fr_heap_launched. rewrite length_apply_writes.
    unfold fr_heap_at_launch. rewrite length_app. simpl. lia. }
  split; [assumption|]. cbv zeta.
  fold (fr_out_dim r). rewrite <- fr_count_eq.
  split; [reflexivity|]. split; [exact H1|].
  split.
  { destruct Hr as (sa & _ & _ & -> & _). exact H2. }
  split; [exact H3|]. split; [reflexivity|].
  split.
  { unfold fr_int_info, fr_in_size, fr_scale, fr_mapping.
    repeat constructor; cbn [data_ptr]; apply lookup_ge_None_2; lia. }
  split.
  { unfold fr_int_info, fr_in_size, fr_scale, fr_mapping.
    cbn [fmap list_fmap data_ptr]. rewrite Hl.
    repeat constructor; rewrite ?not_elem_of_cons; repeat split;
      try lia; apply not_elem_of_nil. }
  split; [exact R1|]. split; [exact R2|].
  split.
  { intros Hc. destruct (R3 Hc) as (? & ? & _). now split. }
  intros go go' st2 pre Hs Ego Hpos.
  exists (bk_grad_input r pre), (bk_final psROI_backward_fn r go' pre).
  split; [|reflexivity].
  now apply (backward_after_forward x rois Info st (fr_ctx forward_fn r)
                                    (fr_final forward_fn r) r).
Qed.

(** C9.  [GET_BLOCKS count] is the ceiling of [count / 1024]; a grid of
    that many blocks of 1024 threads has at least [count] threads, and
    every index below [count] is the index of a thread of a block of the
    grid.  A forward call that returns has launched its kernel once, on
    that grid, over [count = N * out_dim * outh * outw] elements. *)
Theorem dispatch_covers :
  (forall count : Z,
      GET_BLOCKS count = Qceiling (count # 1024) /\
      count <= GET_BLOCKS count * CUDA_NUM_THREADS /\
      forall i : Z,
        0 <= i < count ->
        exists blockIdx threadIdx : Z,
          0 <= blockIdx < GET_BLOCKS count /\
          0 <= threadIdx < CUDA_NUM_THREADS /\
          i = blockIdx * CUDA_NUM_THREADS + threadIdx) /\
  (forall ctx x rois Info st ctx' out st1,
      forward forward_fn ctx x rois Info st = (Ok (ctx', out), st1) ->
      exists r args,
        fr_reads r x rois Info st /\
        launches st1
        = launches st ++
          [mkLaunch PSROIPoolForward
             (KInt (fr_N r * fr_out_dim r * fr_oh r * fr_ow r) :: args)
             (CUDA_NUM_THREADS, 1, 1)
             (GET_BLOCKS (fr_N r * fr_out_dim r * fr_oh r * fr_ow r), 1, 1)]).
Proof.
  split.
  - intros count. split; [apply GET_BLOCKS_ceiling|].
    pose proof (GET_BLOCKS_bounds count) as Hb. split; [lia|].
    intros i Hi. exists (i / CUDA_NUM_THREADS), (i mod CUDA_NUM_THREADS).
    unfold CUDA_NUM_THREADS in *.
    pose proof (Z.div_mod i 1024 ltac:(lia)).
    pose proof (Z.mod_pos_bound i 1024 ltac:(lia)).
    repeat split; try lia.
  - intros ctx x rois Info st ctx' out st1 Hf.
    apply forward_Ok_inv in Hf as (r & Hr & Hp & -> & -> & ->).
    pose proof (fr_reads_pre r x rois Info st Hr) as [_ Hl].
    exists r. eexists. split; [assumption|].
    unfold fr_final, fr_launch, fr_args, forward_args. cbn [launches].
    rewrite Hl, <- fr_count_eq. reflexivity.
Qed.

End psRoI_properties.

(** ** The kernels inside forward *)

Section kernel_facts.

Import PSROIPool.

Lemma div_mod_step a b c :
  0 <= c < b -> (a * b + c) / b = a /\ (a * b + c) mod b = c.
Proof.
  intros Hc. split.
  - symmetry. apply (Z.div_unique _ _ a c); lia.
  - symmetry. apply (Z.mod_unique _ _ a c); lia.
Qed.

Lemma unravel_ravel out_dim outH outW n c_out ph pw :
  0 <= c_out < out_dim -> 0 <= ph < outH -> 0 <= pw < outW ->
  unravel out_dim outH outW (ravel out_dim outH outW n c_out ph pw)
  = (n, c_out, ph, pw).
Proof.
  intros Hc Hh Hw. unfold unravel, ravel.
  destruct (div_mod_step ((n * out_dim + c_out) * outH + ph) outW pw Hw)
    as [D1 M1].
  destruct (div_mod_step (n * out_dim + c_out) outH ph Hh) as [D2 M2].
  destruct (div_mod_step n out_dim c_out Hc) as [D3 M3].
  now rewrite M1, D1, M2, D2, M3, D3.
Qed.

Lemma ravel_range N out_dim outH outW n c_out ph pw :
  0 <= n < N -> 0 <= c_out < out_dim -> 0 <= ph < outH -> 0 <= pw < outW ->
  0 <= ravel out_dim outH outW n c_out ph pw < N * out_dim * outH * outW.
Proof.
  intros Hn Hc Hh Hw. unfold ravel.
  assert (0 <= n * out_dim + c_out < N * out_dim) by nia.
  assert (0 <= (n * out_dim + c_out) * outH + ph < N * out_dim * outH) by nia.
  nia.
Qed.

(** The grid of [forward] launches every element. *)
Lemma launched_GET_BLOCKS count i :
  0 <= i < count ->
  launched (GET_BLOCKS count) CUDA_NUM_THREADS count i = true.
Proof.
  intros Hi. unfold launched.
  pose proof (GET_BLOCKS_bounds count).
  apply andb_true_intro. split; apply Z.ltb_lt; lia.
Qed.

Lemma write_each_lookup {A} grid block count (f : Z -> A) old i :
  (Z.to_nat i < length old)%nat -> 0 <= i ->
  launched grid block count i = true ->
  write_each grid block count f old !! Z.to_nat i = Some (f i).
Proof.
  intros Hlen Hi Hl. unfold write_each.
  rewrite list_lookup_imap.
  destruct (lookup_lt_is_Some_2 old (Z.to_nat i) Hlen) as [v ->].
  cbn. rewrite Z2Nat.id by assumption. now rewrite Hl.
Qed.

(** Where the inputs are once they are contiguous. *)
Lemma contiguous_storage x st x' st' b :
  contiguous x st = (Ok x', st') ->
  heap st !! data_ptr x = Some b -> heap st' !! data_ptr x' = Some b.
Proof.
  intros E Hb.
  destruct (contiguous_cases x st) as [[Hc E']|[(Hc & Hn & E')|(Hc & b' & Hb' & E')]];
    rewrite E' in E; try discriminate; injection E as <- <-.
  - assumption.
  - cbn [heap data_ptr]. rewrite lookup_app_r by lia.
    rewrite Nat.sub_diag. cbn. congruence.
Qed.

Lemma fr_reads_storage r x rois Info st bx br :
  fr_reads r x rois Info st ->
  heap st !! data_ptr x = Some bx ->
  heap st !! data_ptr rois = Some br ->
  heap (fr_pre r) !! data_ptr (fr_x r) = Some bx /\
  heap (fr_pre r) !! data_ptr (fr_rois r) = Some br.
Proof.
  intros (sa & Ex & Er & _) Hx Hr. split.
  - eapply contiguous_lookup; [exact Er|].
    eapply contiguous_storage; eassumption.
  - eapply contiguous_storage; [exact Er|].
    eapply contiguous_lookup; eassumption.
Qed.

Lemma forward_kernel_final r s fm rs :
  float32 (Some (fr_sc r)) = Fin s ->
  heap (fr_pre r) !! data_ptr (fr_x r) = Some (FloatBuf fm) ->
  heap (fr_pre r) !! data_ptr (fr_rois r) = Some (FloatBuf rs) ->
  heap (fr_final forward_kernel r) !! data_ptr (fr_output r)
  = Some (FloatBuf (fr_output_buffer r s fm rs)) /\
  heap (fr_final forward_kernel r) !! data_ptr (fr_mapping r)
  = Some (IntBuf (fr_mapping_buffer r s fm rs)).
Proof.
  intros Hs Hx Hr.
  assert (Hw : forward_kernel (fr_args r) (GET_BLOCKS (fr_count r))
                 CUDA_NUM_THREADS (fr_heap_at_launch r)
               = [(data_ptr (fr_output r), FloatBuf (fr_output_buffer r s fm rs));
                  (data_ptr (fr_mapping r), IntBuf (fr_mapping_buffer r s fm rs))]).
  { unfold forward_kernel, fr_args, forward_args, fr_heap_at_launch.
    rewrite Hs.
    rewrite (lookup_app_l_Some _ _ _ _ Hx), (lookup_app_l_Some _ _ _ _ Hr).
    unfold fr_output, fr_mapping. cbn [data_ptr].
    rewrite lookup_app_r by lia. rewrite Nat.sub_diag.
    rewrite lookup_app_r by lia.
    replace (S _ - _)%nat with 1%nat by lia. reflexivity. }
  unfold fr_final. cbn [heap]. unfold fr_heap_launched. rewrite Hw.
  unfold apply_writes. cbn [foldl].
  assert (Hlen : length (fr_heap_at_launch r) = S (S (length (heap (fr_pre r))))).
  { unfold fr_heap_at_launch. rewrite length_app. simpl. lia. }
  unfold fr_output, fr_mapping. cbn [data_ptr]. split.
  - apply lookup_app_l_Some.
    rewrite list_lookup_insert_ne by lia.
    apply list_lookup_insert_eq. lia.
  - apply lookup_app_l_Some.
    apply list_lookup_insert_eq. rewrite length_insert. lia.
Qed.

End kernel_facts.

Section kernel_properties.

Import PSROIPool.

(** What the forward kernel leaves at an element of the index space. *)
Lemma forward_kernel_element r s fm rs n c_out ph pw :
  0 <= n < fr_N r -> 0 <= c_out < fr_out_dim r ->
  0 <= ph < fr_oh r -> 0 <= pw < fr_ow r ->
  let i := Z.to_nat (ravel (fr_out_dim r) (fr_oh r) (fr_ow r) n c_out ph pw) in
  let c := c_src (fr_gs r) (fr_out_dim r) c_out ph pw in
  let reg := region_at rs n in
  let win := bin_window reg s (fr_H r) (fr_W r) (fr_oh r) (fr_ow r) ph pw in
  fr_mapping_buffer r s fm rs !! i = Some c /\
  fr_output_buffer r s fm rs !! i = Some (pool fm (fr_C r) (fr_H r) (fr_W r) reg c win).
Proof.
  intros Hn Hc Hh Hw i c reg win.
  pose proof (ravel_range _ _ _ _ _ _ _ _ Hn Hc Hh Hw) as Hi.
  rewrite <- fr_count_eq in Hi.
  assert (El : fr_element r s fm rs
                 (ravel (fr_out_dim r) (fr_oh r) (fr_ow r) n c_out ph pw)
               = (pool fm (fr_C r) (fr_H r) (fr_W r) reg c win, c)).
  { unfold fr_element, forward_element. now rewrite unravel_ravel. }
  unfold fr_mapping_buffer, fr_output_buffer, i. split.
  - rewrite write_each_lookup; [now rewrite El|rewrite repeat_length; lia|lia|].
    now apply launched_GET_BLOCKS.
  - rewrite write_each_lookup; [now rewrite El|rewrite repeat_length; lia|lia|].
    now apply launched_GET_BLOCKS.
Qed.

Lemma forward_kernel_run ctx x rois Info st r s fm rs :
  fr_reads r x rois Info st -> fr_passes r ->
  float32 (Some (fr_sc r)) = Fin s ->
  heap st !! data_ptr x = Some (FloatBuf fm) ->
  heap st !! data_ptr rois = Some (FloatBuf rs) ->
  forward forward_kernel ctx x rois Info st
  = (Ok (fr_ctx forward_kernel r, fr_output r), fr_final forward_kernel r) /\
  heap (fr_final forward_kernel r) !! data_ptr (fr_output r)
  = Some (FloatBuf (fr_output_buffer r s fm rs)) /\
  heap (fr_final forward_kernel r) !! data_ptr (fr_mapping r)
  = Some (IntBuf (fr_mapping_buffer r s fm rs)).
Proof.
  intros Hr Hp Hs Hx Hrs.
  destruct (fr_reads_storage r x rois Info st _ _ Hr Hx Hrs) as [Sx Sr].
  split; [now apply forward_Ok_run|].
  now apply forward_kernel_final.
Qed.


Lemma is_empty_true win :
  hend win <= hstart win \/ wend win <= wstart win -> is_empty win = true.
Proof.
  unfold is_empty. intros [H|H]; apply orb_true_iff; [left|right];
    now apply Z.leb_le.
Qed.

(** C6.  For an output element whose clipped window, under the spatial
    scale in 32 bits that the kernel is given (finite for every scale
    below [2 ^ 127] in absolute value, by [float32_nearest_finite]), is
    empty ([hstart >= hend] or [wstart >= wend]), forward, which returns,
    leaves the finite value [0] in the output, not [NaN], and [c_src] in
    the channel mapping; and the unit of backward for that element
    leaves the gradient as it is, whatever the incoming gradient. *)
Theorem empty_bin_zero ctx x rois Info st r s fm rs :
  fr_reads r x rois Info st -> fr_passes r ->
  float32 (Some (fr_sc r)) = Fin s ->
  heap st !! data_ptr x = Some (FloatBuf fm) ->
  heap st !! data_ptr rois = Some (FloatBuf rs) ->
  exists out_buf map_buf,
    forward forward_kernel ctx x rois Info st
    = (Ok (fr_ctx forward_kernel r, fr_output r), fr_final forward_kernel r) /\
    heap (fr_final forward_kernel r) !! data_ptr (fr_output r)
    = Some (FloatBuf out_buf) /\
    heap (fr_final forward_kernel r) !! data_ptr (fr_mapping r)
    = Some (IntBuf map_buf) /\
    forall n c_out ph pw,
      0 <= n < fr_N r -> 0 <= c_out < fr_out_dim r ->
      0 <= ph < fr_oh r -> 0 <= pw < fr_ow r ->
      let index := ravel (fr_out_dim r) (fr_oh r) (fr_ow r) n c_out ph pw in
      let win := bin_window (region_at rs n) s (fr_H r) (fr_W r)
                            (fr_oh r) (fr_ow r) ph pw in
      hend win <= hstart win \/ wend win <= wstart win ->
      out_buf !! Z.to_nat index = Some (Fin 0) /\
      map_buf !! Z.to_nat index
      = Some ((ph * fr_gs r + pw) * fr_out_dim r + c_out) /\
      forall (grad_output : list fval) (mapping : list Z) (grad : list fval),
        backward_element s (fr_C r) (fr_H r) (fr_W r)
                         (fr_oh r) (fr_ow r) (fr_out_dim r) rs
                         grad_output mapping grad index
        = grad.
Proof.
  intros Hr Hp Hs Hx Hrs.
  destruct (forward_kernel_run ctx x rois Info st r s fm rs Hr Hp Hs Hx Hrs)
    as (Hf & Ho & Hm).
  exists (fr_output_buffer r s fm rs), (fr_mapping_buffer r s fm rs).
  split; [exact Hf|]. split; [exact Ho|]. split; [exact Hm|].
  intros n c_out ph pw Hn Hc Hh Hw index win Hempty.
  apply is_empty_true in Hempty.
  destruct (forward_kernel_element r s fm rs n c_out ph pw Hn Hc Hh Hw)
    as [E1 E2].
  fold index win in E1, E2. split; [|split].
  - rewrite E2. unfold pool. now rewrite Hempty.
  - exact E1.
  - intros go mapping grad. unfold backward_element, index.
    rewrite unravel_ravel by assumption. fold win.
    unfold scatter. now rewrite Hempty.
Qed.

End kernel_properties.

(** ** The properties on the worked example *)

Lemma ex_reads : fr_reads ex_run ex_x ex_rois ex_Info ex_st.
Proof. exists ex_st. repeat split; reflexivity. Qed.

Lemma ex_forward :
  forward PSROIPool.forward_kernel (mkCtx []) ex_x ex_rois ex_Info ex_st
  = (Ok (fr_ctx PSROIPool.forward_kernel ex_run, fr_output ex_run),
     fr_final PSROIPool.forward_kernel ex_run).
Proof. vm_compute. reflexivity. Qed.

(** Group size 3 on four channels raises in the initial state; group size
    2 gets through. *)
Lemma forward_channel_check_witness :
  forward PSROIPool.forward_kernel (mkCtx []) ex_x ex_rois ex_Info3 ex_st
  = (Raise (ValueError channel_msg), ex_st) /\
  forward PSROIPool.forward_kernel (mkCtx []) ex_x ex_rois ex_Info ex_st
  = (Ok (fr_ctx PSROIPool.forward_kernel ex_run, fr_output ex_run),
     fr_final PSROIPool.forward_kernel ex_run).
Proof.
  split.
  - refine (proj1 (proj2 (forward_channel_check PSROIPool.forward_kernel
             (mkCtx []) ex_x ex_rois ex_Info3 ex_st ex_run3 _)) _ _).
    + exists ex_st. repeat split; reflexivity.
    + simpl. lia.
    + vm_compute. discriminate.
  - refine (proj1 (proj2 (proj2 (proj2 (forward_channel_check
             PSROIPool.forward_kernel (mkCtx []) ex_x ex_rois ex_Info ex_st
             ex_run _))) _ _ _ _ _ _)).
    + exists ex_st. repeat split; reflexivity.
    + simpl. lia.
    + reflexivity.
    + simpl. lia.
    + simpl. lia.
    + simpl. lia.
    + simpl. lia.
Defined.

Lemma ex_saved_intact :
  saved_intact (fr_ctx PSROIPool.forward_kernel ex_run)
               (fr_final PSROIPool.forward_kernel ex_run) ex_st2.
Proof. repeat constructor. Qed.


(** On the example with the scale 1/10: the channel mapping saved is
    flat, of 4 elements, and the scale saved is 1/10 in 32 bits,
    13421773 / 2^27. *)
Lemma forward_saved_state_witness :
  exists scale mapping,
    saved_tensors (fr_ctx PSROIPool.forward_kernel ex_run10) !! 2%nat
    = Some scale /\
    saved_tensors (fr_ctx PSROIPool.forward_kernel ex_run10) !! 4%nat
    = Some mapping /\
    heap (fr_final PSROIPool.forward_kernel ex_run10) !! data_ptr scale
    = Some (FloatBuf [Fin (13421773 # 134217728)]) /\
    t_shape mapping = [4].
Proof.
  destruct (forward_saved_state PSROIPool.forward_kernel
              PSROIPool.backward_kernel (mkCtx []) ex_x ex_rois ex_Info10
              ex_st (fr_ctx PSROIPool.forward_kernel ex_run10)
              (fr_output ex_run10)
              (fr_final PSROIPool.forward_kernel ex_run10))
    as (r & t1 & t2 & t3 & mapping & Hr & Hs & _ & _ & Hsc & Hm & _).
  { vm_compute. reflexivity. }
  destruct Hr as (sa & _ & _ & Hx & Hn & HI).
  injection Hx as _ HC _ _. injection Hn as HN.
  injection HI as Hh Hw Hq Hg.
  exists t3, mapping. rewrite Hs.
  split; [reflexivity|]. split; [reflexivity|]. split.
  - rewrite <- Hq in Hsc. exact Hsc.
  - rewrite Hm, <- HC, <- HN, <- Hh, <- Hw, <- Hg. reflexivity.
Defined.

(** Backward on the example returns the gradient of the feature map and
    two None. *)
Lemma backward_only_input_gradient_witness :
  exists g st3,
    backward PSROIPool.backward_kernel (fr_ctx PSROIPool.forward_kernel ex_run)
             (Some ex_grad) ex_st2
    = (Ok (Some g, None, None), st3).
Proof.
  destruct (proj2 (backward_only_input_gradient PSROIPool.forward_kernel
                     PSROIPool.backward_kernel)
              (mkCtx []) ex_x ex_rois ex_Info ex_st
              (fr_ctx PSROIPool.forward_kernel ex_run) (fr_output ex_run)
              (fr_final PSROIPool.forward_kernel ex_run)
              ex_grad ex_grad ex_st2 ex_st2)
    as (g & st3 & E).
  { vm_compute. reflexivity. }
  { repeat constructor. }
  { reflexivity. }
  { repeat constructor; simpl; lia. }
  exists g, st3. exact E.
Defined.

(** Index 2047 of 2500 elements has its thread; the example launched its
    kernel. *)
Lemma dispatch_covers_witness :
  (exists blockIdx threadIdx : Z,
      0 <= blockIdx < GET_BLOCKS 2500 /\
      0 <= threadIdx < CUDA_NUM_THREADS /\
      2047 = blockIdx * CUDA_NUM_THREADS + threadIdx) /\
  launches (fr_final PSROIPool.forward_kernel ex_run) <> [].
Proof.
  split.
  - refine (proj2 (proj2 (proj1 (dispatch_covers PSROIPool.forward_kernel)
                                2500)) 2047 _).
    lia.
  - destruct (proj2 (dispatch_covers PSROIPool.forward_kernel)
                (mkCtx []) ex_x ex_rois ex_Info ex_st
                (fr_ctx PSROIPool.forward_kernel ex_run) (fr_output ex_run)
                (fr_final PSROIPool.forward_kernel ex_run))
      as (r & args & _ & E).
    { vm_compute. reflexivity. }
    rewrite E. simpl. discriminate.
Defined.


(** With the region outside the image, bin [(0, 0)] is empty and its
    output is 0. *)
Lemma empty_bin_zero_witness :
  exists out_buf,
    heap (fr_final PSROIPool.forward_kernel ex_run_far)
      !! data_ptr (fr_output ex_run_far)
    = Some (FloatBuf out_buf) /\
    out_buf !! 0%nat = Some (Fin 0).
Proof.
  destruct (empty_bin_zero (mkCtx []) ex_x ex_rois ex_Info ex_st_far
              ex_run_far 1 ex_fm ex_far)
    as (out_buf & map_buf & _ & Ho & _ & Hel).
  { exists ex_st_far. repeat split; reflexivity. }
  { repeat split; [simpl; lia|reflexivity..]. }
  { reflexivity. }
  { reflexivity. }
  { reflexivity. }
  exists out_buf. split; [exact Ho|].
  refine (proj1 (Hel 0 0 0 0 _ _ _ _ _));
    try (vm_compute; (split; [intros H; discriminate H | reflexivity])).
  left. vm_compute. intros H. discriminate H.
Defined.

(** The scenario of the specification: each bin of the one output channel
    averages its own channel of the feature map. *)
Example ex_scenario_forward :
  fnorm <$> fr_output_buffer ex_run 1 ex_fm ex_regions
  = [Fin 1; Fin 2; Fin 3; Fin 4] /\
  fr_mapping_buffer ex_run 1 ex_fm ex_regions = [0; 1; 2; 3].
Proof. split; vm_compute; reflexivity. Qed.

(** Two overlapping regions add up in the gradient: 1/4 + 1/4 in each of
    the four pixels they share. *)
Example ex_scenario_overlap :
  fnorm <$> ex_overlap_grad
  = [Fin (1 # 2); Fin (1 # 2); Fin (1 # 2); Fin (1 # 2)].
Proof. vm_compute. reflexivity. Qed.

(** * Further properties of the module *)

(** ** The pool-size normaliser and the configuration *)

Lemma repeat_lookup_lt {A} (v : A) (n i : nat) :
  (i < n)%nat -> repeat v n !! i = Some v.
Proof.
  revert i. induction n as [|n IH]; intros [|i] Hi; cbn; try lia; auto.
  apply IH. lia.
Qed.

(** X1.  [t_ntuple n] always returns an iterable; applied to a value that is
    not iterable, it returns exactly [n] elements, each of them the value;
    it is idempotent, whatever the two lengths: an iterable passes
    unchanged, with no check of how many elements it has. *)
Theorem t_ntuple_idempotent (A : Type) (n m : nat) (x : arg A) :
  is_iterable (t_ntuple n x) = true /\
  t_ntuple m (t_ntuple n x) = t_ntuple n x /\
  (forall v : A, x = Single v ->
     exists xs, t_ntuple n x = Iter xs /\ length xs = n /\
                forall i, (i < n)%nat -> getitem (t_ntuple n x) i = Ok v) /\
  (forall xs : list A, x = Iter xs -> t_ntuple n x = Iter xs) /\
  (forall xs : list A, x = Unordered xs -> t_ntuple n x = Unordered xs).
Proof.
  destruct x as [v|xs|xs]; cbn; repeat split; try reflexivity;
    try (intros ? [=]; fail).
  - intros v' [= <-]. exists (repeat v n). split; [reflexivity|].
    split; [apply repeat_length|].
    intros i Hi. now rewrite (repeat_lookup_lt v n i Hi).
  - now intros xs' [= <-].
  - now intros xs' [= <-].
Qed.

Lemma t_ntuple_idempotent_witness :
  exists xs, t_ntuple 3 (Single 7) = Iter xs /\ length xs = 3%nat /\
             forall i, (i < 3)%nat -> getitem (t_ntuple 3 (Single 7)) i = Ok 7.
Proof.
  exact (proj1 (proj2 (proj2 (t_ntuple_idempotent Z 3 5 (Single 7)))) 7
               eq_refl).
Defined.

(** X2.  [set_para] on a pool size that cannot be indexed at 0 and 1 (a
    value that is not subscriptable: a scalar, a set, a generator; or a
    sequence of fewer than two elements) raises TypeError or IndexError
    and leaves the object exactly as it was: the right-hand side of the
    first assignment is evaluated before anything is stored. *)
Theorem set_para_unindexable (self : psRoI_Info) (pool_size : arg Z)
    (scale : Q) (gs : option Z) :
  (forall h w rest, pool_size <> Iter (h :: w :: rest)) ->
  exists e,
    set_para pool_size scale gs self = (Raise e, self) /\
    (e = TypeError \/ e = IndexError) /\
    (forall xs, pool_size = Iter xs -> e = IndexError) /\
    (forall v, pool_size = Single v -> e = TypeError) /\
    (forall xs, pool_size = Unordered xs -> e = TypeError).
Proof.
  intros Hp. destruct pool_size as [v|[|a [|b rest]]|xs].
  - exists TypeError. repeat split; auto. intros xs [=].
  - exists IndexError. repeat split; auto; intros v [=].
  - exists IndexError. repeat split; auto; intros v [=].
  - exfalso. now apply (Hp a b rest).
  - exists TypeError. repeat split; auto. intros xs' [=].
Qed.

Lemma set_para_unindexable_witness :
  exists e,
    set_para (Iter [7]) (1 # 16) None ex_Info = (Raise e, ex_Info) /\
    (e = TypeError \/ e = IndexError) /\
    (forall xs, Iter [7] = Iter xs -> e = IndexError) /\
    (forall v, Iter [7] = Single v -> e = TypeError) /\
    (forall xs, Iter [7] = Unordered xs -> e = TypeError).
Proof.
  apply (set_para_unindexable ex_Info (Iter [7]) (1 # 16) None).
  intros h w rest H. discriminate H.
Defined.

(** X3.  A call of [set_para] that returns has overwritten the whole
    configuration: what it leaves does not depend on what the object held
    before, all four fields are set, the spatial scale is the one given,
    and when no group size was given the two pool sizes and the group
    size are the same number.  Calling it again with the same arguments
    changes nothing. *)
Theorem set_para_overwrites (pool_size : arg Z) (scale : Q) (gs : option Z)
    (self self' : psRoI_Info) :
  set_para pool_size scale gs self = (Ok tt, self') ->
  (forall other, set_para pool_size scale gs other = (Ok tt, self')) /\
  (exists h w g,
      self' = mkInfo (Some h) (Some w) (Some scale) (Some g) /\
      getitem pool_size 0 = Ok h /\ getitem pool_size 1 = Ok w /\
      match gs with
      | Some g' => g = g'
      | None => h = w /\ g = h
      end).
Proof.
  destruct pool_size as [v|[|h [|w rest]]|xs]; try discriminate.
  rewrite set_para_pair. intros Hs. split.
  - intros other. rewrite set_para_pair.
    destruct gs as [g|]; [exact Hs|].
    destruct (h =? w); [exact Hs|discriminate].
  - destruct gs as [g|].
    + injection Hs as <-. exists h, w, g. repeat split.
    + destruct (Z.eqb_spec h w) as [->|]; [|discriminate].
      injection Hs as <-. exists w, w, w. repeat split.
Qed.

Lemma set_para_overwrites_witness :
  set_para (Iter [7; 7]) (1 # 16) None ex_Info3
  = (Ok tt, mkInfo (Some 7) (Some 7) (Some (1 # 16)%Q) (Some 7)).
Proof.
  apply (proj1 (set_para_overwrites (Iter [7; 7]) (1 # 16) None
                  psRoI_Info_init
                  (mkInfo (Some 7) (Some 7) (Some (1 # 16)%Q) (Some 7))
                  eq_refl)).
Defined.

(** X4.  Given a pool size that is a number, a sequence (tuple, list) of
    numbers or an iterable of numbers that cannot be indexed (set,
    generator), the constructor of [PSRoIPooling2D] either returns a
    module whose configuration is complete (the first two elements of
    the normalised pool size, the scale given, and the group size given
    or else the common pool size), or raises: TypeError when the pool
    size is an iterable that cannot be indexed, IndexError when it is a
    sequence of fewer than two elements, ValueError when no group size
    is given and the two pool sizes differ.  On these pool sizes it
    raises nothing else; a number never makes it raise. *)
Theorem PSRoIPooling2D_init_cases (pool_size : arg Z) (scale : Q)
    (gs : option Z) :
  match PSRoIPooling2D_init pool_size scale gs with
  | Ok m =>
      exists h w g,
        RoI_Info m = mkInfo (Some h) (Some w) (Some scale) (Some g) /\
        getitem (t_pair pool_size) 0 = Ok h /\
        getitem (t_pair pool_size) 1 = Ok w /\
        match gs with
        | Some g' => g = g'
        | None => h = w /\ g = h
        end
  | Raise e =>
      (e = TypeError /\ exists xs, pool_size = Unordered xs) \/
      (e = IndexError /\
       exists xs, pool_size = Iter xs /\ (length xs < 2)%nat) \/
      (e = ValueError pool_msg /\ gs = None /\
       exists h w rest, pool_size = Iter (h :: w :: rest) /\ h <> w)
  end /\
  (forall v, pool_size = Single v ->
     exists m, PSRoIPooling2D_init pool_size scale gs = Ok m) /\
  (forall xs, pool_size = Unordered xs ->
     PSRoIPooling2D_init pool_size scale gs = Raise TypeError) /\
  (forall xs, pool_size = Iter xs -> (length xs < 2)%nat ->
     PSRoIPooling2D_init pool_size scale gs = Raise IndexError) /\
  (forall h w rest, pool_size = Iter (h :: w :: rest) -> h <> w ->
     gs = None ->
     PSRoIPooling2D_init pool_size scale gs = Raise (ValueError pool_msg)).
Proof.
  split.
  { unfold PSRoIPooling2D_init.
    destruct pool_size as [v|[|h [|w rest]]|xs]; unfold t_pair, t_ntuple;
      cbn [repeat].
    - rewrite set_para_pair. destruct gs as [g|].
      + exists v, v, g. repeat split.
      + rewrite Z.eqb_refl. exists v, v, v. repeat split.
    - right. left. split; [reflexivity|].
      exists []. split; [reflexivity|cbn; lia].
    - right. left. split; [reflexivity|].
      exists [h]. split; [reflexivity|cbn; lia].
    - rewrite set_para_pair. destruct gs as [g|].
      + exists h, w, g. repeat split.
      + destruct (Z.eqb_spec h w) as [->|Hne].
        * exists w, w, w. repeat split.
        * right. right. split; [reflexivity|]. split; [reflexivity|].
          exists h, w, rest. now split.
    - left. split; [reflexivity|]. now exists xs. }
  split; [|split; [|split]].
  - intros v ->. unfold PSRoIPooling2D_init, t_pair, t_ntuple. cbn [repeat].
    rewrite set_para_pair. destruct gs as [g|]; [eauto|].
    rewrite Z.eqb_refl. eauto.
  - intros xs ->. reflexivity.
  - intros [|a [|b rest]] -> Hlen; [reflexivity|reflexivity|].
    cbn in Hlen. lia.
  - intros h w rest -> Hne ->.
    unfold PSRoIPooling2D_init, t_pair, t_ntuple. rewrite set_para_pair.
    now destruct (Z.eqb_spec h w).
Qed.

(** ** The launch grid for any block size *)

(** X5.  For every positive block size [K], [GET_BLOCKS(N, K)] is the least
    number of blocks that hold [N] threads: the grid holds [N] threads and
    one block fewer would not, so fewer than [K] threads of the grid are
    idle.  It is 0 or less exactly when there is no element, it does not
    decrease when [N] grows, and [K] more elements take one more block. *)
Theorem GET_BLOCKS_K_least (N K : Z) :
  0 < K ->
  (GET_BLOCKS_K N K - 1) * K < N <= GET_BLOCKS_K N K * K /\
  (GET_BLOCKS_K N K <= 0 <-> N <= 0) /\
  (forall N', N <= N' -> GET_BLOCKS_K N K <= GET_BLOCKS_K N' K) /\
  GET_BLOCKS_K (N + K) K = GET_BLOCKS_K N K + 1.
Proof.
  intros HK. unfold GET_BLOCKS_K.
  pose proof (Z.div_mod (N + K - 1) K ltac:(lia)) as E.
  pose proof (Z.mod_pos_bound (N + K - 1) K HK) as Hm.
  split; [nia|]. split; [split; intros; nia|]. split.
  - intros N' HN. apply Z.div_le_mono; lia.
  - replace (N + K + K - 1) with (N + K - 1 + 1 * K) by ring.
    now rewrite Z.div_add by lia.
Qed.

Lemma GET_BLOCKS_K_least_witness :
  (GET_BLOCKS_K 2500 256 - 1) * 256 < 2500 <= GET_BLOCKS_K 2500 256 * 256.
Proof.
  apply (proj1 (GET_BLOCKS_K_least 2500 256 ltac:(lia))).
Defined.

(** ** Forward: errors, edge cases and what it leaves in memory *)

Section psRoI_more.

Variable forward_fn : kernel.
Variable psROI_backward_fn : kernel.

(** X6.  Before it tests the channels, forward fails on a feature map that
    is not 4-dimensional (ValueError, from unpacking its size, with the
    message for too few or for too many values), on a regions tensor
    without dimensions (IndexError) and on a configuration whose group
    size was never set (TypeError).  In each case the runtime is the one
    reached once the inputs are contiguous: nothing is allocated for the
    output and no kernel is launched. *)
Theorem forward_early_errors ctx x rois Info st x' sa rois' sb :
  contiguous x st = (Ok x', sa) ->
  contiguous rois sa = (Ok rois', sb) ->
  launches sb = launches st /\
  ((length (t_shape x) < 4)%nat ->
   forward forward_fn ctx x rois Info st
   = (Raise (ValueError
               ("not enough values to unpack (expected 4, got "
                  ++ decimal (length (t_shape x)) ++ ")")%string), sb)) /\
  ((4 < length (t_shape x))%nat ->
   forward forward_fn ctx x rois Info st
   = (Raise (ValueError "too many values to unpack (expected 4)"%string),
      sb)) /\
  (length (t_shape x) = 4%nat -> t_shape rois = [] ->
   forward forward_fn ctx x rois Info st = (Raise IndexError, sb)) /\
  (length (t_shape x) = 4%nat -> t_shape rois <> [] ->
   group_size Info = None ->
   forward forward_fn ctx x rois Info st = (Raise TypeError, sb)).
Proof.
  intros Ex Er.
  pose proof (contiguous_Ok _ _ _ _ Ex) as (Sx & _ & _).
  pose proof (contiguous_Ok _ _ _ _ Er) as (Sr & _ & _).
  split.
  { apply contiguous_state in Ex as [_ L1].
    apply contiguous_state in Er as [_ L2]. congruence. }
  unfold forward, bind. rewrite Ex, Er, Sx. unfold size. rewrite Sr.
  split; [|split; [|split]].
  - intros Hlen.
    destruct (t_shape x) as [|B [|C [|H [|W [|? ?]]]]]; cbn in Hlen;
      try reflexivity; lia.
  - intros Hlen.
    destruct (t_shape x) as [|B [|C [|H [|W [|? ?]]]]]; cbn in Hlen;
      try lia. reflexivity.
  - intros Hlen ->.
    destruct (t_shape x) as [|B [|C [|H [|W [|? ?]]]]]; cbn in Hlen;
      try lia. reflexivity.
  - intros Hlen Hr Hg.
    destruct (t_shape x) as [|B [|C [|H [|W [|? ?]]]]]; cbn in Hlen;
      try lia.
    destruct (t_shape rois) as [|N rest]; [contradiction|].
    cbn. now rewrite Hg.
Qed.

(** X7.  In every forward call that returns, the channels of the feature map
    are exactly [group_size * group_size * out_dim], the four dimensions
    of the output are not negative, and the kernel has been launched,
    once, over the number of elements that is their product and on the
    grid for that number. *)
Theorem forward_channel_product ctx x rois Info st ctx' out st1 :
  forward forward_fn ctx x rois Info st = (Ok (ctx', out), st1) ->
  exists B C H W N gs out_dim oh ow args,
    t_shape x = [B; C; H; W] /\
    group_size Info = Some gs /\
    t_shape out = [N; out_dim; oh; ow] /\
    C = gs * gs * out_dim /\
    0 <= N /\ 0 <= out_dim /\ 0 <= oh /\ 0 <= ow /\
    numel (t_shape out) = N * out_dim * oh * ow /\
    0 <= numel (t_shape out) /\
    launches st1
    = launches st ++
      [mkLaunch PSROIPoolForward (KInt (N * out_dim * oh * ow) :: args)
                (CUDA_NUM_THREADS, 1, 1)
                (GET_BLOCKS (N * out_dim * oh * ow), 1, 1)].
Proof.
  intros Hf. apply forward_Ok_inv in Hf as (r & Hr & Hp & -> & -> & ->).
  pose proof (fr_reads_pre r x rois Info st Hr) as [_ Hl].
  destruct Hr as (sa & _ & _ & Hx & _ & ->).
  destruct Hp as (Hg & Hm & Hs).
  exists (fr_B r), (fr_C r), (fr_H r), (fr_W r), (fr_N r), (fr_gs r),
    (fr_out_dim r), (fr_oh r), (fr_ow r).
  eexists.
  pose proof (numel_nonneg _ Hs) as Hn.
  unfold fr_shape in Hs. cbn [forallb] in Hs.
  repeat (apply andb_prop in Hs as [?%Z.leb_le Hs]).
  split; [assumption|]. split; [reflexivity|]. split; [reflexivity|].
  split.
  { unfold fr_out_dim.
    pose proof (Z.div_mod (fr_C r) (fr_gs r * fr_gs r) Hg). lia. }
  do 4 (split; [assumption|]).
  split; [apply numel4|]. split; [exact Hn|].
  unfold fr_final, fr_launch, fr_args, forward_args. cbn [launches].
  rewrite Hl, <- fr_count_eq. reflexivity.
Qed.


(** X8.  When there is nothing to pool (no region, no channel, or a pool size
    of zero), forward still returns: the element count is 0, the kernel is
    launched on a grid of 0 blocks, and the output and the channel mapping
    are empty buffers. *)
Theorem forward_no_element ctx x rois Info st r :
  fr_reads r x rois Info st -> fr_passes r ->
  fr_N r = 0 \/ fr_C r = 0 \/ fr_oh r = 0 \/ fr_ow r = 0 ->
  forward forward_fn ctx x rois Info st
  = (Ok (fr_ctx forward_fn r, fr_output r), fr_final forward_fn r) /\
  numel (t_shape (fr_output r)) = 0 /\
  l_grid (fr_launch r) = (0, 1, 1) /\
  fr_heap_at_launch r = heap (fr_pre r) ++ [FloatBuf []; IntBuf []].
Proof.
  intros Hr Hp Hz.
  assert (Hc : fr_count r = 0).
  { rewrite fr_count_eq. unfold fr_out_dim.
    destruct Hz as [Hz|[Hz|[Hz|Hz]]]; rewrite Hz; try lia.
    rewrite Z.div_0_l; [lia|]. now destruct Hp. }
  split; [now apply forward_Ok_run|].
  split; [exact Hc|].
  unfold fr_launch, fr_heap_at_launch, zero_floats, zero_ints.
  cbn [l_grid]. rewrite Hc. split; reflexivity.
Qed.


(** X10.  The regions tensor saved for backward is the caller's own tensor when
    that one is contiguous: no copy is made.  Otherwise it is a contiguous
    copy, with the same shape and contents, in storage that did not exist
    before the call. *)
Theorem forward_saves_regions ctx x rois Info st ctx' out st1 :
  forward forward_fn ctx x rois Info st = (Ok (ctx', out), st1) ->
  exists r,
    fr_reads r x rois Info st /\
    saved_tensors ctx' !! 3%nat = Some (fr_rois r) /\
    t_shape (fr_rois r) = t_shape rois /\
    (is_contiguous rois = true -> fr_rois r = rois) /\
    (is_contiguous rois = false ->
     heap st !! data_ptr (fr_rois r) = None /\
     data_ptr (fr_rois r) <> data_ptr rois /\
     is_Some (heap (fr_pre r) !! data_ptr rois) /\
     heap (fr_pre r) !! data_ptr (fr_rois r)
     = heap (fr_pre r) !! data_ptr rois).
Proof.
  intros Hf. apply forward_Ok_inv in Hf as (r & Hr & Hp & -> & -> & ->).
  exists r. split; [assumption|]. split; [reflexivity|].
  destruct Hr as (sa & Ex & Er & _).
  pose proof (contiguous_state _ _ _ _ Ex) as [Hsa _].
  destruct (contiguous_cases rois sa)
    as [[Hc E]|[(Hc & Hn & E)|(Hc & b & Hb & E)]];
    rewrite E in Er; try discriminate; injection Er as E1 E2.
  - rewrite <- E1. split; [reflexivity|]. split; [reflexivity|].
    rewrite Hc. discriminate.
  - rewrite <- E1, <- E2. cbn [t_shape data_ptr heap].
    split; [reflexivity|]. split; [rewrite Hc; discriminate|].
    intros _. pose proof (lookup_lt_Some _ _ _ Hb) as Hlt.
    split; [|split; [|split]].
    + apply lookup_ge_None_2. rewrite Hsa, length_app. lia.
    + lia.
    + exists b. now apply lookup_app_l_Some.
    + rewrite lookup_app_r by lia. rewrite Nat.sub_diag. cbn.
      symmetry. now apply lookup_app_l_Some.
Qed.





(** X13.  A backward call given a gradient on a context that does not hold
    exactly five saved tensors (for instance one that no forward call has
    filled) raises ValueError once the gradient is contiguous, with the
    message for too few or for too many values: no gradient is allocated
    and no kernel is launched. *)
Theorem backward_without_saved_state ctx go st go' pre :
  contiguous go st = (Ok go', pre) ->
  launches pre = launches st /\
  ((length (saved_tensors ctx) < 5)%nat ->
   backward psROI_backward_fn ctx (Some go) st
   = (Raise (ValueError
               ("not enough values to unpack (expected 5, got "
                  ++ decimal (length (saved_tensors ctx)) ++ ")")%string),
      pre)) /\
  ((5 < length (saved_tensors ctx))%nat ->
   backward psROI_backward_fn ctx (Some go) st
   = (Raise (ValueError "too many values to unpack (expected 5)"%string),
      pre)).
Proof.
  intros Ego. split; [now apply contiguous_state in Ego as [_ ?]|].
  unfold backward, bind. rewrite Ego. unfold unpack5.
  split; intros Hlen;
    destruct (saved_tensors ctx) as [|a [|b [|c [|d [|e [|f l]]]]]];
    cbn in Hlen; try reflexivity; lia.
Qed.

(** X14.  The backward call paired with a forward call, given a gradient of the
    shape of the output, launches its kernel on the same grid and blocks
    as forward did, over the same number of elements. *)
Theorem backward_grid_matches ctx x rois Info st ctx' out st1
    go go' st2 pre :
  forward forward_fn ctx x rois Info st = (Ok (ctx', out), st1) ->
  saved_intact ctx' st1 st2 ->
  contiguous go st2 = (Ok go', pre) ->
  Forall (fun d => 0 <= d) (t_shape x) ->
  t_shape go = t_shape out ->
  exists lf lb g st3 argsf argsb,
    last (launches st1) = Some lf /\
    backward psROI_backward_fn ctx' (Some go) st2
    = (Ok (Some g, None, None), st3) /\
    last (launches st3) = Some lb /\
    l_grid lb = l_grid lf /\ l_block lb = l_block lf /\
    l_args lf = KInt (numel (t_shape out)) :: argsf /\
    l_args lb = KInt (numel (t_shape out)) :: argsb.
Proof.
  intros Hf Hs Ego Hpos Hshape.
  apply forward_Ok_inv in Hf as (r & Hr & Hp & -> & -> & ->).
  pose proof (backward_after_forward forward_fn psROI_backward_fn
                x rois Info st _ _ r go go' st2 pre Hr eq_refl eq_refl
                Hs Ego Hpos) as Hb.
  apply contiguous_Ok in Ego as (Sgo & _ & _).
  exists (fr_launch r), (bk_launch r go' pre), (bk_grad_input r pre),
    (bk_final psROI_backward_fn r go' pre).
  eexists _, _.
  split; [apply last_snoc|]. split; [exact Hb|].
  split; [apply last_snoc|].
  unfold bk_launch, fr_launch, bk_grid. cbn [l_grid l_block l_args].
  rewrite Sgo, Hshape. cbn [fr_output t_shape].
  repeat split; reflexivity.
Qed.

(** X15.  A configuration left behind by a call of [set_para] that raised is
    still accepted by forward: on an object that had group size [g], after
    the failed call with pool sizes [h <> w], forward pools into
    [h x w] bins with the former group size [g]. *)
Theorem forward_after_failed_set_para ctx x rois st r self h w rest scale :
  h <> w ->
  group_size self = Some (fr_gs r) ->
  fr_reads r x rois
           (mkInfo (Some h) (Some w) (Some scale) (Some (fr_gs r))) st ->
  fr_passes r ->
  exists self',
    set_para (Iter (h :: w :: rest)) scale None self
    = (Raise (ValueError pool_msg), self') /\
    forward forward_fn ctx x rois self' st
    = (Ok (fr_ctx forward_fn r, fr_output r), fr_final forward_fn r) /\
    t_shape (fr_output r)
    = [fr_N r; fr_C r / (fr_gs r * fr_gs r); h; w].
Proof.
  intros Hne Hg Hr Hp.
  exists (mkInfo (Some h) (Some w) (Some scale) (Some (fr_gs r))).
  split.
  - rewrite set_para_pair, Hg. now destruct (Z.eqb_spec h w).
  - split; [now apply forward_Ok_run|].
    destruct Hr as (sa & _ & _ & _ & _ & HI).
    injection HI as -> ->. reflexivity.
Qed.

(** X16.  A module built with a scalar pool size [p] and no group size, called
    on a feature map of [C] channels and [N] regions: with [p > 0] and
    [p * p] dividing [C] it returns an output of shape
    [(N, C / (p * p), p, p)], and [C] is [p * p] times its channels; with
    [p * p] not dividing [C] it raises ValueError; with [p = 0] it
    raises ZeroDivisionError; with [p < 0] and [p * p] dividing [C] it
    raises RuntimeError.  When it raises, nothing has been allocated for
    the output. *)
Theorem module_forward_scalar_pool p scale m x rois st x' sa rois' sb
    B C H W N rest :
  PSRoIPooling2D_init (Single p) scale None = Ok m ->
  contiguous x st = (Ok x', sa) ->
  contiguous rois sa = (Ok rois', sb) ->
  t_shape x = [B; C; H; W] -> t_shape rois = N :: rest ->
  0 <= N -> 0 <= C ->
  (0 < p -> C mod (p * p) = 0 ->
   exists ctx' out st',
     PSRoIPooling2D_forward forward_fn m x rois st = (Ok (ctx', out), st') /\
     t_shape out = [N; C / (p * p); p; p] /\
     C = p * p * (C / (p * p))) /\
  (p <> 0 -> C mod (p * p) <> 0 ->
   PSRoIPooling2D_forward forward_fn m x rois st
   = (Raise (ValueError channel_msg), sb)) /\
  (p = 0 ->
   PSRoIPooling2D_forward forward_fn m x rois st
   = (Raise ZeroDivisionError, sb)) /\
  (p < 0 -> C mod (p * p) = 0 ->
   PSRoIPooling2D_forward forward_fn m x rois st
   = (Raise RuntimeError, sb)).
Proof.
  intros Hm Ex Er Hx Hrois HN HC.
  unfold PSRoIPooling2D_init, t_pair, t_ntuple in Hm. cbn [repeat] in Hm.
  rewrite set_para_pair, Z.eqb_refl in Hm. injection Hm as <-.
  unfold PSRoIPooling2D_forward. cbn [RoI_Info].
  set (r := mkRun x' rois' sb B C H W N p p p scale).
  assert (Hr : fr_reads r x rois
                 (mkInfo (Some p) (Some p) (Some scale) (Some p)) st).
  { exists sa. repeat split; try assumption. now rewrite Hrois. }
  split; [|split; [|split]].
  - intros Hp Hmod.
    exists (fr_ctx forward_fn r), (fr_output r), (fr_final forward_fn r).
    split; [|split; [reflexivity|]].
    + apply forward_Ok_run; [assumption|].
      repeat split; [cbn; nia|assumption|].
      unfold fr_shape, fr_out_dim. cbn [forallb fr_N fr_C fr_gs fr_oh fr_ow r].
      assert (0 <= C / (p * p)) by (apply Z.div_pos; nia).
      repeat (apply andb_true_intro; split);
        try (apply Z.leb_le; lia). reflexivity.
    + pose proof (Z.div_mod C (p * p) ltac:(nia)). lia.
  - intros Hp Hmod.
    rewrite (forward_channel_raise forward_fn (mkCtx []) x rois _ st r Hr)
      by (now right).
    cbn [fr_gs fr_pre r].
    destruct (Z.eqb_spec (p * p) 0); [nia|reflexivity].
  - intros ->.
    rewrite (forward_channel_raise forward_fn (mkCtx []) x rois _ st r Hr)
      by (now left).
    reflexivity.
  - intros Hp Hmod.
    pose proof (contiguous_Ok _ _ _ _ Ex) as (Sx & _ & _).
    pose proof (contiguous_Ok _ _ _ _ Er) as (Sr & _ & _).
    unfold forward, bind. rewrite Ex, Er, Sx, Hx. cbn [unpack4 ret].
    unfold size. rewrite Sr, Hrois. cbn.
    unfold lift, py_mod, py_floordiv.
    destruct (Z.eqb_spec (p * p) 0); [nia|].
    rewrite Hmod. cbn. unfold zeros, zeros_with. cbn [forallb].
    replace (0 <=? p) with false by (symmetry; apply Z.leb_gt; lia).
    now rewrite !andb_false_r.
Qed.

End psRoI_more.

(** *** On the worked example *)

(** A feature map of three dimensions, and a configuration never set. *)
Lemma forward_early_errors_witness :
  forward PSROIPool.forward_kernel (mkCtx []) (mkTensor [4; 4; 4] 0 true)
          ex_rois ex_Info ex_st
  = (Raise (ValueError
              "not enough values to unpack (expected 4, got 3)"%string),
     ex_st) /\
  forward PSROIPool.forward_kernel (mkCtx []) ex_x ex_rois psRoI_Info_init
          ex_st
  = (Raise TypeError, ex_st).
Proof.
  split.
  - refine (proj1 (proj2 (forward_early_errors PSROIPool.forward_kernel
             (mkCtx []) (mkTensor [4; 4; 4] 0 true) ex_rois ex_Info ex_st
             (mkTensor [4; 4; 4] 0 true) ex_st ex_rois ex_st _ _)) _).
    + reflexivity.
    + reflexivity.
    + simpl. lia.
  - refine (proj2 (proj2 (proj2 (proj2 (forward_early_errors
             PSROIPool.forward_kernel (mkCtx []) ex_x ex_rois
             psRoI_Info_init ex_st ex_x ex_st ex_rois ex_st _ _)))) _ _ _).
    + reflexivity.
    + reflexivity.
    + reflexivity.
    + simpl. intros H. discriminate H.
    + reflexivity.
Defined.

Lemma forward_channel_product_witness :
  exists B C H W N gs out_dim oh ow args,
    t_shape ex_x = [B; C; H; W] /\
    group_size ex_Info = Some gs /\
    t_shape (fr_output ex_run) = [N; out_dim; oh; ow] /\
    C = gs * gs * out_dim /\
    0 <= N /\ 0 <= out_dim /\ 0 <= oh /\ 0 <= ow /\
    numel (t_shape (fr_output ex_run)) = N * out_dim * oh * ow /\
    0 <= numel (t_shape (fr_output ex_run)) /\
    launches (fr_final PSROIPool.forward_kernel ex_run)
    = launches ex_st ++
      [mkLaunch PSROIPoolForward (KInt (N * out_dim * oh * ow) :: args)
                (CUDA_NUM_THREADS, 1, 1)
                (GET_BLOCKS (N * out_dim * oh * ow), 1, 1)].
Proof.
  apply (forward_channel_product PSROIPool.forward_kernel (mkCtx []) ex_x
           ex_rois ex_Info ex_st (fr_ctx PSROIPool.forward_kernel ex_run)
           (fr_output ex_run) (fr_final PSROIPool.forward_kernel ex_run)).
  vm_compute. reflexivity.
Defined.

(** No region: the grid is empty. *)
Lemma forward_no_element_witness :
  forward PSROIPool.forward_kernel (mkCtx []) ex_x ex_rois0 ex_Info ex_st0
  = (Ok (fr_ctx PSROIPool.forward_kernel ex_run0, fr_output ex_run0),
     fr_final PSROIPool.forward_kernel ex_run0) /\
  numel (t_shape (fr_output ex_run0)) = 0 /\
  l_grid (fr_launch ex_run0) = (0, 1, 1) /\
  fr_heap_at_launch ex_run0
  = heap (fr_pre ex_run0) ++ [FloatBuf []; IntBuf []].
Proof.
  apply (forward_no_element PSROIPool.forward_kernel (mkCtx []) ex_x
           ex_rois0 ex_Info ex_st0 ex_run0).
  - exists ex_st0. repeat split; reflexivity.
  - repeat split; [simpl; lia|reflexivity..].
  - left. reflexivity.
Defined.


(** Regions that are not contiguous are saved as a copy. *)
Lemma forward_saves_regions_witness :
  exists r,
    fr_reads r ex_x ex_rois_nc ex_Info ex_st /\
    saved_tensors (fr_ctx PSROIPool.forward_kernel ex_run_nc) !! 3%nat
    = Some (fr_rois r) /\
    t_shape (fr_rois r) = t_shape ex_rois_nc /\
    (is_contiguous ex_rois_nc = true -> fr_rois r = ex_rois_nc) /\
    (is_contiguous ex_rois_nc = false ->
     heap ex_st !! data_ptr (fr_rois r) = None /\
     data_ptr (fr_rois r) <> data_ptr ex_rois_nc /\
     is_Some (heap (fr_pre r) !! data_ptr ex_rois_nc) /\
     heap (fr_pre r) !! data_ptr (fr_rois r)
     = heap (fr_pre r) !! data_ptr ex_rois_nc).
Proof.
  apply (forward_saves_regions PSROIPool.forward_kernel (mkCtx []) ex_x
           ex_rois_nc ex_Info ex_st
           (fr_ctx PSROIPool.forward_kernel ex_run_nc)
           (fr_output ex_run_nc)
           (fr_final PSROIPool.forward_kernel ex_run_nc)).
  vm_compute. reflexivity.
Defined.



(** Backward on a context that forward never filled. *)
Lemma backward_without_saved_state_witness :
  backward PSROIPool.backward_kernel (mkCtx []) (Some ex_grad) ex_st2
  = (Raise (ValueError
              "not enough values to unpack (expected 5, got 0)"%string),
     ex_st2).
Proof.
  refine (proj1 (proj2 (backward_without_saved_state
            PSROIPool.backward_kernel (mkCtx []) ex_grad ex_st2 ex_grad
            ex_st2 _)) _).
  - reflexivity.
  - simpl. lia.
Defined.

(** The two grids of the example are the same. *)
Lemma backward_grid_matches_witness :
  exists lf lb g st3 argsf argsb,
    last (launches (fr_final PSROIPool.forward_kernel ex_run)) = Some lf /\
    backward PSROIPool.backward_kernel
             (fr_ctx PSROIPool.forward_kernel ex_run) (Some ex_grad) ex_st2
    = (Ok (Some g, None, None), st3) /\
    last (launches st3) = Some lb /\
    l_grid lb = l_grid lf /\ l_block lb = l_block lf /\
    l_args lf = KInt (numel (t_shape (fr_output ex_run))) :: argsf /\
    l_args lb = KInt (numel (t_shape (fr_output ex_run))) :: argsb.
Proof.
  apply (backward_grid_matches PSROIPool.forward_kernel
           PSROIPool.backward_kernel (mkCtx []) ex_x ex_rois ex_Info ex_st
           (fr_ctx PSROIPool.forward_kernel ex_run) (fr_output ex_run)
           (fr_final PSROIPool.forward_kernel ex_run)
           ex_grad ex_grad ex_st2 ex_st2).
  - vm_compute. reflexivity.
  - repeat constructor.
  - reflexivity.
  - repeat constructor; simpl; lia.
  - reflexivity.
Defined.

(** An object configured for 7 x 7 bins and group size 2, after a failed
    call with pool sizes (2, 3): forward pools the example into 2 x 3
    bins with group size 2. *)
Lemma forward_after_failed_set_para_witness :
  exists self',
    set_para (Iter [2; 3]) 1 None
             (mkInfo (Some 7) (Some 7) (Some 1%Q) (Some 2))
    = (Raise (ValueError pool_msg), self') /\
    forward PSROIPool.forward_kernel (mkCtx []) ex_x ex_rois self' ex_st
    = (Ok (fr_ctx PSROIPool.forward_kernel
                  (mkRun ex_x ex_rois ex_st 1 4 4 4 1 2 2 3 1),
           fr_output (mkRun ex_x ex_rois ex_st 1 4 4 4 1 2 2 3 1)),
       fr_final PSROIPool.forward_kernel
                (mkRun ex_x ex_rois ex_st 1 4 4 4 1 2 2 3 1)) /\
    t_shape (fr_output (mkRun ex_x ex_rois ex_st 1 4 4 4 1 2 2 3 1))
    = [1; 4 / (2 * 2); 2; 3].
Proof.
  apply (forward_after_failed_set_para PSROIPool.forward_kernel (mkCtx [])
           ex_x ex_rois ex_st (mkRun ex_x ex_rois ex_st 1 4 4 4 1 2 2 3 1)
           (mkInfo (Some 7) (Some 7) (Some 1%Q) (Some 2)) 2 3 [] 1).
  - lia.
  - reflexivity.
  - exists ex_st. repeat split; reflexivity.
  - repeat split; [simpl; lia|reflexivity..].
Defined.

(** The module built with pool size 2 on the example. *)
Lemma module_forward_scalar_pool_witness :
  exists ctx' out st',
    PSRoIPooling2D_forward PSROIPool.forward_kernel
      (mkModule (mkInfo (Some 2) (Some 2) (Some 1%Q) (Some 2)))
      ex_x ex_rois ex_st
    = (Ok (ctx', out), st') /\
    t_shape out = [1; 4 / (2 * 2); 2; 2] /\
    4 = 2 * 2 * (4 / (2 * 2)).
Proof.
  refine (proj1 (module_forward_scalar_pool PSROIPool.forward_kernel 2 1
            (mkModule (mkInfo (Some 2) (Some 2) (Some 1%Q) (Some 2)))
            ex_x ex_rois ex_st ex_x ex_st ex_rois ex_st 1 4 4 4 1 [5]
            _ _ _ _ _ _ _) _ _).
  - reflexivity.
  - reflexivity.
  - reflexivity.
  - reflexivity.
  - reflexivity.
  - lia.
  - lia.
  - lia.
  - reflexivity.
Defined.

(** ** The warm-up call *)

Lemma lookup_app_add {A} (h l : list A) (k : nat) :
  (h ++ l) !! (length h + k)%nat = l !! k.
Proof.
  rewrite lookup_app_r by lia. f_equal. lia.
Qed.

Lemma bind_bind {S A B C} (m : M S A) (f : A -> M S B) (g : B -> M S C) s :
  bind (bind m f) g s = bind m (fun x => bind (f x) g) s.
Proof. unfold bind. destruct (m s) as [[a|e] s1]; reflexivity. Qed.

Lemma bind_ret {S A B} (a : A) (k : A -> M S B) s : bind (ret a) k s = k a s.
Proof. reflexivity. Qed.

Lemma bind_get {S B} (k : S -> M S B) s : bind get k s = k s s.
Proof. reflexivity. Qed.

Lemma bind_alloc {B} b (k : nat -> M runtime B) h l ls :
  bind (alloc b) k (mkRuntime (h ++ l) ls)
  = k (length h + length l)%nat (mkRuntime (h ++ (l ++ [b])) ls).
Proof.
  unfold bind, alloc. cbn [heap launches].
  now rewrite length_app, app_assoc.
Qed.

Lemma fake_data_run noise h ls :
  fake_data noise (mkRuntime h ls)
  = (Ok (mkTensor [2; 1029; 28; 28] (length h) true,
         mkTensor [3; 5] (length h + 6) true),
     mkRuntime
       (h ++
          [noise_buffer noise;
           FloatBuf (Fin <$> [0; 0; 112; 112; 7; 75; 503; 442]%Q);
           FloatBuf (Fin <$> [0; 0; 224; 224]%Q);
           IntBuf [0; 0; 1];
           FloatBuf (Fin <$> [0; 0; 112; 112; 7; 75; 503; 442; 0; 0; 224; 224]%Q);
           FloatBuf fake_regions; FloatBuf fake_regions])
       ls).
Proof.
  unfold fake_data. change (21 * 7 * 7) with 1029.
  rewrite <- (app_nil_r h) at 1.
  unfold randn, zeros_with. cbn [forallb Z.leb Z.compare andb].
  fold (noise_buffer noise). generalize (noise_buffer noise). intros nb.
  unfold tensor_of_rows, tensor_of_ints, cat, reshape_column, hstack, cuda,
    read_all, read_floats, contiguous, detach, requires_grad_.
  repeat first
    [ rewrite bind_bind
    | rewrite bind_alloc
    | rewrite bind_get
    | rewrite bind_ret
    | rewrite lookup_app_add
    | rewrite numel1
    | match goal with
      | |- context [Z.of_nat ?n] =>
          let v := eval vm_compute in (Z.of_nat n) in
          change (Z.of_nat n) with v
      | |- context [Z.to_nat ?n] =>
          let v := eval vm_compute in (Z.to_nat n) in
          change (Z.to_nat n) with v
      | |- context [Z.add ?a ?b] =>
          let v := eval vm_compute in (Z.add a b) in
          change (Z.add a b) with v
      end
    | progress cbn [length app]
    | progress cbn -[numel bind alloc get ret raise] ].
  rewrite Nat.add_0_r. reflexivity.
Qed.

Lemma read_floats_run x s b :
  heap s !! data_ptr x = Some b -> read_floats x s = (Ok (as_floats b), s).
Proof. unfold read_floats, bind, get. now intros ->. Qed.

Lemma bind_Ok {S A B} (m : M S A) (k : A -> M S B) s a s1 :
  m s = (Ok a, s1) -> bind m k s = k a s1.
Proof. unfold bind. now intros ->. Qed.

Lemma bind_Raise {S A B} (m : M S A) (k : A -> M S B) s e s1 :
  m s = (Raise e, s1) -> bind m k s = (Raise e, s1).
Proof. unfold bind. now intros ->. Qed.

Lemma fr_final_length fk r :
  length (heap (fr_final fk r)) = (length (heap (fr_pre r)) + 5)%nat.
Proof.
  unfold fr_final, fr_heap_launched, fr_heap_at_launch. cbn [heap].
  rewrite length_app, length_apply_writes, length_app. cbn. lia.
Qed.

(** Allocations made after a forward call leave its saved tensors intact. *)
Lemma saved_intact_app fk r extra ls :
  (data_ptr (fr_rois r) < length (heap (fr_pre r)))%nat ->
  saved_intact (fr_ctx fk r) (fr_final fk r)
               (mkRuntime (heap (fr_final fk r) ++ extra) ls).
Proof.
  intros Hr. pose proof (fr_final_length fk r) as Hl.
  assert (Hk : length (fr_heap_launched fk r)
               = (length (heap (fr_pre r)) + 2)%nat).
  { unfold fr_heap_launched, fr_heap_at_launch.
    rewrite length_apply_writes, length_app. cbn. lia. }
  unfold saved_intact, fr_ctx, fr_int_info, fr_in_size, fr_scale, fr_mapping.
  cbn [saved_tensors heap].
  repeat constructor; cbn [data_ptr]; apply lookup_app_l; lia.
Qed.

Lemma squares_dividing_1029 gs :
  gs <> 0 ->
  (1029 mod (gs * gs) = 0 <-> gs = 1 \/ gs = -1 \/ gs = 7 \/ gs = -7).
Proof.
  intros Hg. split.
  - intros Hm.
    assert (Hd : (gs * gs | 1029)) by (apply Z.mod_divide; [nia|exact Hm]).
    apply Z.divide_pos_le in Hd; [|lia].
    assert (Hb : -32 <= gs <= 32) by nia.
    assert (Hin : In gs ((fun k => Z.of_nat k - 32) <$> seq 0 65)).
    { apply in_map_iff. exists (Z.to_nat (gs + 32)). split; [lia|].
      apply in_seq. lia. }
    assert (Hall : forallb (fun g => implb (1029 mod (g * g) =? 0)
                                       ((g =? 1) || (g =? -1) || (g =? 7) || (g =? -7)))
                     ((fun k => Z.of_nat k - 32) <$> seq 0 65) = true)
      by (vm_compute; reflexivity).
    rewrite forallb_forall in Hall. specialize (Hall gs Hin).
    rewrite Hm in Hall. cbn in Hall.
    repeat (apply orb_prop in Hall as [Hall|Hall]); apply Z.eqb_eq in Hall; auto.
  - intros [-> | [-> | [-> | ->]]]; reflexivity.
Qed.

Section activation_facts.
Variable forward_fn : kernel.
Variable psROI_backward_fn : kernel.

Lemma act_reads noise h ls gs oh ow sc :
  fr_reads (act_run noise h ls gs oh ow sc) (act_x h) (act_rois h)
           (mkInfo (Some oh) (Some ow) (Some sc) (Some gs)) (act_pre noise h ls).
Proof. exists (act_pre noise h ls). repeat split; reflexivity. Qed.

(** X17.  The warm-up call, on a module whose group size is not zero: when
    the square of the group size does not divide the 1029 channels of the
    fake data, it raises the channel error and no kernel has been
    launched; when it does, and the pool sizes are not negative, it
    returns, having launched the forward kernel and then the backward
    kernel, once each and on the same grid, the one of
    [3 * (1029 / gs^2) * outh * outw] elements.  The group sizes that get
    through are 1, -1, 7 and -7. *)
Theorem acitvate_PsROI_for_eval_runs noise m st oh ow sc gs :
  RoI_Info m = mkInfo (Some oh) (Some ow) (Some sc) (Some gs) ->
  gs <> 0 ->
  (1029 mod (gs * gs) <> 0 ->
   exists st',
     acitvate_PsROI_for_eval forward_fn psROI_backward_fn noise m st
     = (Raise (ValueError channel_msg), st') /\
     launches st' = launches st) /\
  (1029 mod (gs * gs) = 0 -> 0 <= oh -> 0 <= ow ->
   exists st' lf lb,
     acitvate_PsROI_for_eval forward_fn psROI_backward_fn noise m st
     = (Ok tt, st') /\
     launches st' = launches st ++ [lf; lb] /\
     l_kernel lf = PSROIPoolForward /\ l_kernel lb = PSROIPoolBackward /\
     l_grid lf = (GET_BLOCKS (3 * (1029 / (gs * gs)) * oh * ow), 1, 1) /\
     l_grid lb = l_grid lf) /\
  (1029 mod (gs * gs) = 0 <-> gs = 1 \/ gs = -1 \/ gs = 7 \/ gs = -7).
Proof.
  intros HI Hg. destruct st as [h ls].
  split; [|split; [|now apply squares_dividing_1029]].
  - intros Hm. exists (act_pre noise h ls). split; [|reflexivity].
    unfold acitvate_PsROI_for_eval.
    rewrite (bind_Ok _ _ _ _ _ (fake_data_run noise h ls)).
    fold (act_x h) (act_rois h) (act_pre noise h ls).
    unfold PSRoIPooling2D_forward. rewrite HI.
    erewrite bind_Raise; [reflexivity|].
    rewrite (forward_channel_raise forward_fn (mkCtx []) _ _ _ _
               (act_run noise h ls gs oh ow sc) (act_reads _ _ _ _ _ _ _))
      by (right; exact Hm).
    cbn [fr_gs fr_pre act_run].
    destruct (Z.eqb_spec (gs * gs) 0); [nia|reflexivity].
  - intros Hm Hoh How.
    set (r := act_run noise h ls gs oh ow sc).
    assert (Hp : fr_passes r).
    { repeat split; [cbn; nia|exact Hm|].
      unfold fr_shape, fr_out_dim. cbn [forallb fr_N fr_C fr_gs fr_oh fr_ow r act_run].
      assert (0 <= 1029 / (gs * gs)) by (apply Z.div_pos; nia).
      repeat (apply andb_true_intro; split); try (apply Z.leb_le; lia).
      reflexivity. }
    pose proof (forward_Ok_run forward_fn (mkCtx []) _ _ _ _ r
                  (act_reads noise h ls gs oh ow sc) Hp) as Hf.
    pose proof (fr_final_length forward_fn r) as Hlen.
    (* the output buffer *)
    destruct (lookup_lt_is_Some_2 (heap (fr_final forward_fn r))
                (data_ptr (fr_output r))) as [bo Hbo].
    { rewrite Hlen. cbn [fr_output data_ptr]. lia. }
    set (st2 := mkRuntime
                  (heap (fr_final forward_fn r) ++
                     [FloatBuf [foldl PSROIPool.fadd (Fin 0) (as_floats bo)];
                      FloatBuf (repeat (Fin 1)
                                  (Z.to_nat (numel (t_shape (fr_output r)))))])
                  (launches (fr_final forward_fn r))).
    set (go := mkTensor (t_shape (fr_output r))
                 (S (length (heap (fr_final forward_fn r))))
                 (numel (t_shape (fr_output r)) <=? 1)).
    assert (Hgo : exists go' pre, contiguous go st2 = (Ok go', pre)).
    { destruct (contiguous_cases go st2)
        as [[Hc E]|[(Hc & Hn & E)|(Hc & b & Hb & E)]]; eauto.
      exfalso. apply lookup_ge_None in Hn.
      unfold st2, go in Hn. cbn [heap data_ptr] in Hn.
      rewrite length_app in Hn. cbn in Hn. lia. }
    destruct Hgo as (go' & pre & Ego).
    assert (Hs : saved_intact (fr_ctx forward_fn r) (fr_final forward_fn r) st2).
    { apply saved_intact_app. cbn. rewrite length_app. cbn. lia. }
    pose proof (backward_after_run forward_fn psROI_backward_fn r go go' st2 pre
                  Hs Ego eq_refl) as Hb.
    exists (bk_final psROI_backward_fn r go' pre), (fr_launch r),
      (bk_launch r go' pre).
    split.
    { unfold acitvate_PsROI_for_eval.
      rewrite (bind_Ok _ _ _ _ _ (fake_data_run noise h ls)).
      fold (act_x h) (act_rois h) (act_pre noise h ls).
      unfold PSRoIPooling2D_forward. rewrite HI.
      rewrite (bind_Ok _ _ _ _ _ Hf).
      unfold sum_backward.
      rewrite (bind_Ok _ _ _ _ _ (read_floats_run _ _ _ Hbo)).
      unfold bind at 1, alloc at 1. unfold bind at 1, alloc at 1.
      cbn [heap launches]. rewrite <- app_assoc. cbn [app].
      rewrite length_app. cbn [length]. rewrite Nat.add_1_r.
      fold st2. fold go.
      rewrite (bind_Ok _ _ _ _ _ Hb). reflexivity. }
    pose proof (contiguous_Ok _ _ _ _ Ego) as (Hsh & _ & _).
    apply contiguous_state in Ego as [_ Hl].
    assert (Hc : fr_count r = 3 * (1029 / (gs * gs)) * oh * ow).
    { unfold fr_count, fr_shape, fr_out_dim. rewrite numel4. reflexivity. }
    cbn [bk_final launches bk_launch fr_launch l_kernel l_grid].
    rewrite Hl. unfold st2. cbn [launches fr_final].
    rewrite <- app_assoc. cbn [app].
    repeat split.
    + now rewrite Hc.
    + unfold bk_grid. rewrite Hsh. reflexivity.
Qed.
End activation_facts.

(** The warm-up call on a module of pool size 21 and group size 7, from
    an empty runtime. *)
Lemma acitvate_PsROI_for_eval_runs_witness :
  exists st' lf lb,
    acitvate_PsROI_for_eval PSROIPool.forward_kernel PSROIPool.backward_kernel
      (fun _ => 0%Q)
      (mkModule (mkInfo (Some 21) (Some 21) (Some (1 # 16)%Q) (Some 7)))
      (mkRuntime [] [])
    = (Ok tt, st') /\
    launches st' = [] ++ [lf; lb] /\
    l_kernel lf = PSROIPoolForward /\ l_kernel lb = PSROIPoolBackward /\
    l_grid lf = (GET_BLOCKS (3 * (1029 / (7 * 7)) * 21 * 21), 1, 1) /\
    l_grid lb = l_grid lf.
Proof.
  refine (proj1 (proj2 (acitvate_PsROI_for_eval_runs
            PSROIPool.forward_kernel PSROIPool.backward_kernel (fun _ => 0%Q)
            (mkModule (mkInfo (Some 21) (Some 21) (Some (1 # 16)%Q) (Some 7)))
            (mkRuntime [] []) 21 21 (1 # 16)%Q 7 _ _)) _ _ _).
  - reflexivity.
  - lia.
  - reflexivity.
  - lia.
  - lia.
Defined.
